(** * gatco_sqlalchemy: engine cache, bind routing and session lifecycle

    A shallow embedding of [gatco_sqlalchemy/__init__.py].  Python values
    that travel through [app.config] are a small value type with Python's
    truthiness and [==]; dictionaries whose iteration order is observable
    (the [SQLALCHEMY_BINDS] mapping, [metadata.tables], the mapping built
    by [get_binds]) are association lists in insertion order; [app.config]
    itself and the connector cache, which are only ever looked up by key,
    are finite maps.  Exceptions are an explicit result type, and the
    mutable objects (application, extension state, connectors) are threaded
    through a state-and-error monad. *)

From stdpp Require Import gmap strings list fin_maps.
From Stdlib Require Import ZArith String Ascii.

Local Open Scope string_scope.
Local Open Scope Z_scope.
Local Open Scope list_scope.

(* ===================================================================== *)
(** ** Python values *)
(* ===================================================================== *)

(** The values a configuration entry can hold.  [VDict] is a mapping from
    names to strings in insertion order (the shape of [SQLALCHEMY_BINDS]). *)
Inductive pyval :=
| VNone
| VBool (b : bool)
| VInt (n : Z)
| VStr (s : string)
| VDict (d : list (string * string)).

#[global] Instance pyval_eq_dec : EqDecision pyval.
Proof. solve_decision. Defined.

(** [bool(v)] *)
Definition truthy (v : pyval) : bool :=
  match v with
  | VNone => false
  | VBool b => b
  | VInt n => negb (n =? 0)
  | VStr s => negb (String.eqb s "")
  | VDict d => match d with [] => false | _ :: _ => true end
  end.

(** [x or d] *)
Definition py_or (x d : pyval) : pyval := if truthy x then x else d.

(** [d.get(k)] on an insertion-ordered dictionary. *)
Fixpoint dict_get {K V} `{EqDecision K} (d : list (K * V)) (k : K) : option V :=
  match d with
  | [] => None
  | (k', v) :: d' => if decide (k' = k) then Some v else dict_get d' k
  end.

(** [list(d)]: the keys in insertion order. *)
Definition dict_keys {K V} (d : list (K * V)) : list K := map fst d.

(** [d1 == d2] for dictionaries: the same value, or the same absence,
    under every key of either. *)
Definition dict_eqb (d1 d2 : list (string * string)) : bool :=
  let same := fun k => bool_decide (dict_get d1 k = dict_get d2 k) in
  forallb same (dict_keys d1) && forallb same (dict_keys d2).

(** [bool] is a subclass of [int]: [True == 1] and [False == 0]. *)
Definition as_int (v : pyval) : option Z :=
  match v with
  | VBool b => Some (if b then 1 else 0)
  | VInt n => Some n
  | _ => None
  end.

(** [a == b] *)
Definition py_eq (a b : pyval) : bool :=
  match a, b with
  | VNone, VNone => true
  | VStr s, VStr t => String.eqb s t
  | VDict d, VDict e => dict_eqb d e
  | _, _ => match as_int a, as_int b with
            | Some m, Some n => m =? n
            | _, _ => false
            end
  end.

(** [repr(s)] of a string: single quotes unless the text holds a single
    quote and no double quote; backslash, the chosen quote and the control
    characters are escaped. *)
Definition hex_digit (n : N) : ascii :=
  ascii_of_N (if (n <? 10)%N then 48 + n else 87 + n)%N.

Definition repr_char (q : ascii) (c : ascii) : string :=
  let n := N_of_ascii c in
  if Ascii.eqb c "\"%char then "\\"
  else if Ascii.eqb c q then String "\"%char (String q "")
  else if (n =? 10)%N then "\n"
  else if (n =? 13)%N then "\r"
  else if (n =? 9)%N then "\t"
  else if ((n <? 32) || (n =? 127))%N
       then String "\"%char (String "x"%char
              (String (hex_digit (n / 16)) (String (hex_digit (n mod 16)) "")))
  else String c "".

Fixpoint has_char (c : ascii) (s : string) : bool :=
  match s with
  | EmptyString => false
  | String c' s' => Ascii.eqb c c' || has_char c s'
  end.

Fixpoint repr_body (q : ascii) (s : string) : string :=
  match s with
  | EmptyString => EmptyString
  | String c s' => (repr_char q c ++ repr_body q s')%string
  end.

Definition squote : ascii := "'"%char.
Definition dquote : ascii := ascii_of_nat 34.

Definition py_repr (s : string) : string :=
  let q := if has_char squote s && negb (has_char dquote s)
           then dquote else squote in
  String q (repr_body q s ++ String q "")%string.

(* ===================================================================== *)
(** ** Exceptions and results *)
(* ===================================================================== *)

(** The exceptions this module raises itself, and [LibraryError] for any
    exception coming out of the wrapped library (URL parsing, commit, ...),
    told apart by a code. *)
Inductive exn :=
| AssertionError (msg : string)
| RuntimeError (msg : string)
| KeyError (key : string)
| TypeError
| LibraryError (code : nat).

#[global] Instance exn_eq_dec : EqDecision exn.
Proof. solve_decision. Defined.

Inductive result (A : Type) :=
| Ok (a : A)
| Raise (e : exn).
Arguments Ok {A} a.
Arguments Raise {A} e.

(* ===================================================================== *)
(** ** Application configuration *)
(* ===================================================================== *)

(** [app.config.get(key)] *)
Definition config_get (cfg : gmap string pyval) (key : string) : pyval :=
  default VNone (cfg !! key).

(** [app.config[key]] *)
Definition config_item (cfg : gmap string pyval) (key : string) : result pyval :=
  match cfg !! key with
  | Some v => Ok v
  | None => Raise (KeyError key)
  end.

(** A bind identifier: [None] is the primary database. *)
Definition bind_id := option string.

(** [d[k] = v] on an insertion-ordered dictionary: an existing key keeps
    its place, a new key goes last. *)
Fixpoint dict_set {K V} `{EqDecision K} (d : list (K * V)) (k : K) (v : V)
  : list (K * V) :=
  match d with
  | [] => [(k, v)]
  | (k', v') :: d' =>
      if decide (k' = k) then (k', v) :: d' else (k', v') :: dict_set d' k v
  end.

(** [d.update(e)]: the items of [e] are stored in [e]'s order. *)
Definition dict_update {K V} `{EqDecision K} (d e : list (K * V)) : list (K * V) :=
  fold_left (fun acc kv => dict_set acc (fst kv) (snd kv)) e d.

(** [d.setdefault(k, v)] *)
Definition dict_setdefault {K V} `{EqDecision K} (d : list (K * V)) (k : K) (v : V)
  : list (K * V) :=
  match dict_get d k with
  | Some _ => d
  | None => dict_set d k v
  end.

(* ===================================================================== *)
(** ** The wrapped library *)
(* ===================================================================== *)

(** What [make_url] returns: the parts of a database URL this module reads
    ([drivername], [database]) and writes ([query]). *)
Record URL := {
  drivername : string;
  database : option string;
  query : list (string * string)
}.

Inductive poolclass := StaticPool | NullPool.

(** A value stored in the keyword dictionary [options]. *)
Inductive optval :=
| OV (v : pyval)
| OPool (p : poolclass)
| OArgs (a : list (string * pyval)).

(** A pool handle: the object [sqlalchemy.create_engine] returns.  [eid] is
    the object's identity; two handles are the same object iff their
    identities agree. *)
Record engine := {
  eid : nat;
  e_url : URL;
  e_options : gmap string optval
}.

#[global] Instance URL_eq_dec : EqDecision URL.
Proof. solve_decision. Defined.
#[global] Instance poolclass_eq_dec : EqDecision poolclass.
Proof. solve_decision. Defined.
#[global] Instance optval_eq_dec : EqDecision optval.
Proof. solve_decision. Defined.
#[global] Instance engine_eq_dec : EqDecision engine.
Proof. solve_decision. Defined.

(** The two library entry points engine construction goes through.  Both
    may raise; what they accept is the library's business. *)
Class Library := {
  make_url : pyval -> result URL;
  create_engine_error : URL -> gmap string optval -> option exn
}.

(** [sqlalchemy.create_engine(info, **options)]: a new object each call. *)
Definition create_engine `{Library} (info : URL) (options : gmap string optval)
  (next : nat) : result engine :=
  match create_engine_error info options with
  | Some e => Raise e
  | None => Ok {| eid := next; e_url := info; e_options := options |}
  end.

(* ===================================================================== *)
(** ** SQLAlchemy.apply_pool_defaults and SQLAlchemy.apply_driver_hacks *)
(* ===================================================================== *)

(** The local helper of [apply_pool_defaults]. *)
Definition _setdefault (cfg : gmap string pyval) (optionkey configkey : string)
  (options : gmap string optval) : gmap string optval :=
  let value := config_get cfg configkey in
  if decide (value = VNone) then options else <[optionkey := OV value]> options.

Definition apply_pool_defaults (cfg : gmap string pyval)
  (options : gmap string optval) : gmap string optval :=
  let options := _setdefault cfg "pool_size" "SQLALCHEMY_POOL_SIZE" options in
  let options := _setdefault cfg "pool_timeout" "SQLALCHEMY_POOL_TIMEOUT" options in
  let options := _setdefault cfg "pool_recycle" "SQLALCHEMY_POOL_RECYCLE" options in
  _setdefault cfg "max_overflow" "SQLALCHEMY_MAX_OVERFLOW" options.

(** [options.setdefault(k, v)] *)
Definition options_setdefault (k : string) (v : optval)
  (options : gmap string optval) : gmap string optval :=
  match options !! k with
  | Some _ => options
  | None => <[k := v]> options
  end.

(** [x == 0] for what [options.get(k)] returned. *)
Definition opt_is_zero (x : option optval) : bool :=
  match x with
  | Some (OV v) => py_eq v (VInt 0)
  | _ => false
  end.

(** [not x] for what [options.get(k)] returned. *)
Definition opt_not (x : option optval) : bool :=
  match x with
  | None => true
  | Some (OV v) => negb (truthy v)
  | Some (OPool _) => false
  | Some (OArgs a) => match a with [] => true | _ :: _ => false end
  end.

(** [info.database in (None, '', ':memory:')] *)
Definition in_memory_database (db : option string) : bool :=
  match db with
  | None => true
  | Some s => String.eqb s "" || String.eqb s ":memory:"
  end.

Definition in_memory_message : string :=
  "SQLite in memory database with an empty queue not possible due to data loss.".

Definition set_query (info : URL) (q : list (string * string)) : URL :=
  {| drivername := drivername info; database := database info; query := q |}.

(** [options['connect_args']['check_same_thread'] = False] *)
Definition set_check_same_thread (x : optval) : optval :=
  match x with
  | OArgs a => OArgs (dict_set a "check_same_thread" (VBool false))
  | _ => x
  end.

(** [apply_driver_hacks(app, info, options)]; [unicode] is
    [self.use_native_unicode].  The URL and the options are updated in
    place in the source and returned here. *)
Definition apply_driver_hacks (unicode : pyval) (cfg : gmap string pyval)
  (info : URL) (options : gmap string optval)
  : result (URL * gmap string optval) :=
  let hacked :=
    if String.prefix "mysql" (drivername info) then
      let info := set_query info (dict_setdefault (query info) "charset" "utf8") in
      if negb (String.eqb (drivername info) "mysql+gaerdbms") then
        let options := options_setdefault "pool_size" (OV (VInt 10)) options in
        let options := options_setdefault "pool_recycle" (OV (VInt 7200)) options in
        Ok (info, options)
      else Ok (info, options)
    else if String.eqb (drivername info) "sqlite" then
      let pool_size := options !! "pool_size" in
      if in_memory_database (database info) then
        let options := <["poolclass" := OPool StaticPool]> options in
        let options := match options !! "connect_args" with
                       | None => <["connect_args" := OArgs []]> options
                       | Some _ => options
                       end in
        let options := alter set_check_same_thread "connect_args" options in
        if opt_is_zero pool_size then Raise (RuntimeError in_memory_message)
        else Ok (info, options)
      else if opt_not pool_size then
        Ok (info, <["poolclass" := OPool NullPool]> options)
      else Ok (info, options)
    else Ok (info, options) in
  match hacked with
  | Raise e => Raise e
  | Ok (info, options) =>
      match config_item cfg "SQLALCHEMY_NATIVE_UNICODE" with
      | Raise e => Raise e
      | Ok unu =>
          let unu := if decide (unu = VNone) then unicode else unu in
          if negb (truthy unu)
          then Ok (info, <["use_native_unicode" := OV (VBool false)]> options)
          else Ok (info, options)
      end
  end.

(* ===================================================================== *)
(** ** _EngineConnector *)
(* ===================================================================== *)

Definition bind_not_specified (b : string) : string :=
  ("Bind " ++ py_repr b ++
   " is not specified. Set it in the SQLALCHEMY_BINDS configuration variable")%string.

(** [is_substring b s]: the test [b in s] on two strings. *)
Fixpoint is_substring (b s : string) : bool :=
  String.prefix b s ||
  match s with
  | EmptyString => false
  | String _ s' => is_substring b s'
  end.

(** The mutable fields of a connector; [_sa] and [_app] are the one
    extension object and the one application of the model. *)
Record connector := {
  _engine : option engine;
  _connected_for : option (pyval * pyval);
  _bind : bind_id
}.

(** [_EngineConnector(sa, app, bind)] *)
Definition new_connector (bind : bind_id) : connector :=
  {| _engine := None; _connected_for := None; _bind := bind |}.

(** [(uri, echo) == self._connected_for] *)
Definition same_connection (uri echo : pyval) (cf : option (pyval * pyval)) : bool :=
  match cf with
  | None => false
  | Some (uri0, echo0) => py_eq uri uri0 && py_eq echo echo0
  end.

Module EngineConnector.

(** [get_uri]: [binds] is [config.get('SQLALCHEMY_BINDS') or ()]; the
    assertion is [self._bind in binds], the result [binds[self._bind]]. *)
Definition get_uri (cfg : gmap string pyval) (self : connector) : result pyval :=
  match _bind self with
  | None => Ok (config_get cfg "SQLALCHEMY_DATABASE_URI")
  | Some b =>
      let binds := config_get cfg "SQLALCHEMY_BINDS" in
      if truthy binds then
        match binds with
        | VDict d =>
            match dict_get d b with
            | Some uri => Ok (VStr uri)
            | None => Raise (AssertionError (bind_not_specified b))
            end
        | VStr s =>
            (* substring test, then a string indexed by a string *)
            if is_substring b s then Raise TypeError
            else Raise (AssertionError (bind_not_specified b))
        | _ => Raise TypeError   (* [in] on a number *)
        end
      else Raise (AssertionError (bind_not_specified b))
  end.

(** [get_engine]: [unicode] is [self._sa.use_native_unicode], [next] the
    identity the next constructed object gets.  Returns what the call
    returns or raises, the connector afterwards, and the next identity. *)
Definition get_engine `{Library} (unicode : pyval) (cfg : gmap string pyval)
  (self : connector) (next : nat) : result (option engine) * connector * nat :=
  match get_uri cfg self with
  | Raise e => (Raise e, self, next)
  | Ok uri =>
      let echo := config_get cfg "SQLALCHEMY_ECHO" in
      if same_connection uri echo (_connected_for self)
      then (Ok (_engine self), self, next)
      else
        match make_url uri with
        | Raise e => (Raise e, self, next)
        | Ok info =>
            let options := apply_pool_defaults cfg ∅ in
            match apply_driver_hacks unicode cfg info options with
            | Raise e => (Raise e, self, next)
            | Ok (info, options) =>
                let options := if truthy echo
                               then <["echo" := OV echo]> options
                               else options in
                match create_engine info options next with
                | Raise e => (Raise e, self, next)
                | Ok rv =>
                    (Ok (Some rv),
                     {| _engine := Some rv;
                        _connected_for := Some (uri, echo);
                        _bind := _bind self |},
                     S next)
                end
            end
        end
  end.

End EngineConnector.

(* ===================================================================== *)
(** ** The application, the extension object and the world *)
(* ===================================================================== *)

(** A declared table: its name and its [info] dictionary. *)
Record Table := {
  t_name : string;
  t_info : list (string * pyval)
}.

#[global] Instance Table_eq_dec : EqDecision Table.
Proof. solve_decision. Defined.

(** The fields of the [SQLAlchemy] object that never change after
    construction: [use_native_unicode] and the values of
    [Model.metadata.tables], in the order they were declared. *)
Record SQLAlchemy := {
  use_native_unicode : pyval;
  tables : list Table
}.

Inductive schema_op := op_create_all | op_drop_all | op_reflect.

(** One call [op(bind=engine, **extra)] on the metadata; [call_tables] is
    [None] when [extra] is empty. *)
Record schema_call := {
  call_op : schema_op;
  call_bind : option engine;
  call_tables : option (list Table)
}.

(** The model holds one application, which code refers to through [App]. *)
Inductive application := App.

(** Everything mutable: [app.config]; the connector cache
    [app.extensions['sqlalchemy'].connectors], [None] while the extension is
    not registered on the application; whether [self.app] is set; the
    identity of the next object; the warnings issued and the calls made on
    the metadata, oldest first. *)
Record world := {
  config : gmap string pyval;
  extensions : option (gmap bind_id connector);
  self_app : bool;
  next_id : nat;
  warned : list string;
  calls : list schema_call
}.

(** State and exceptions: a raise keeps the state reached so far. *)
Definition M (A : Type) : Type := world -> result A * world.

Definition ret {A} (a : A) : M A := fun w => (Ok a, w).
Definition raise {A} (e : exn) : M A := fun w => (Raise e, w).
Definition bind {A B} (m : M A) (k : A -> M B) : M B :=
  fun w => match m w with
           | (Ok a, w') => k a w'
           | (Raise e, w') => (Raise e, w')
           end.

Declare Scope sa_scope.
Delimit Scope sa_scope with sa.
Notation "'do' x <- m ; k" := (bind m (fun x => k))
  (at level 10, x name, m at level 100, k at level 200) : sa_scope.
Local Open Scope sa_scope.

Definition set_config (cfg : gmap string pyval) (w : world) : world :=
  {| config := cfg; extensions := extensions w; self_app := self_app w;
     next_id := next_id w; warned := warned w; calls := calls w |}.

Definition no_application_message : string :=
  "No application found. Either work inside a view function or push an application context.".

Definition not_registered_message : string :=
  "The sqlalchemy extension was not registered to the current application. Please make sure to call init_app() first.".

(** [get_state(app)], returning the connector cache of the state. *)
Definition get_state (app : application) : M (gmap bind_id connector) :=
  fun w => match extensions w with
           | Some connectors => (Ok connectors, w)
           | None => (Raise (AssertionError not_registered_message), w)
           end.

(** [list(app.config.get('SQLALCHEMY_BINDS') or ())]: the keys of a
    mapping, the characters of a string, nothing for a falsy value. *)
Fixpoint characters (s : string) : list string :=
  match s with
  | EmptyString => []
  | String c s' => String c EmptyString :: characters s'
  end.

Definition configured_binds (cfg : gmap string pyval) : result (list bind_id) :=
  let binds := config_get cfg "SQLALCHEMY_BINDS" in
  if truthy binds then
    match binds with
    | VDict d => Ok (map Some (dict_keys d))
    | VStr s => Ok (map Some (characters s))
    | _ => Raise TypeError
    end
  else Ok [].

(** The value a bind identifier is as a Python object. *)
Definition bind_value (bind : bind_id) : pyval :=
  match bind with
  | None => VNone
  | Some b => VStr b
  end.

(** [table.info.get('bind_key')] *)
Definition bind_key (table : Table) : pyval :=
  default VNone (dict_get (t_info table) "bind_key").

(** The bind selector of the schema operations. *)
Inductive selector :=
| SelStr (s : string)
| SelNone
| SelList (l : list bind_id).

Section SQLAlchemy.
Context `{Library}.
Variable self : SQLAlchemy.

Definition get_app (reference_app : option application) : M application :=
  match reference_app with
  | Some app => ret app
  | None =>
      fun w => if self_app w then (Ok App, w)
               else (Raise (RuntimeError no_application_message), w)
  end.

(** [make_connector] calls [get_app] on an application that is already
    resolved, which returns it. *)
Definition make_connector (app : option application) (bind : bind_id) : M connector :=
  do _ <- get_app app; ret (new_connector bind).

Definition get_engine (app : option application) (bind : bind_id)
  : M (option engine) :=
  do app <- get_app app;
  do connectors <- get_state app;
  do connector <- match connectors !! bind with
                  | Some c => ret c
                  | None => make_connector (Some app) bind
                  end;
  fun w =>
    let '(rv, connector, next) :=
      EngineConnector.get_engine (use_native_unicode self) (config w)
                                 connector (next_id w) in
    (rv, {| config := config w;
            extensions := Some (<[bind := connector]> connectors);
            self_app := self_app w; next_id := next;
            warned := warned w; calls := calls w |}).

(** The loop of [get_tables_for_bind] over the tables still to visit. *)
Fixpoint tables_loop (bind : bind_id) (todo result : list Table) : list Table :=
  match todo with
  | [] => result
  | table :: todo =>
      if py_eq (bind_key table) (bind_value bind)
      then tables_loop bind todo (result ++ [table])
      else tables_loop bind todo result
  end.

Definition get_tables_for_bind (bind : bind_id) : list Table :=
  tables_loop bind (tables self) [].

(** The loop of [get_binds] over the binds still to visit. *)
Fixpoint binds_loop (app : application) (binds : list bind_id)
  (retval : list (Table * option engine)) : M (list (Table * option engine)) :=
  match binds with
  | [] => ret retval
  | bind :: binds =>
      do engine <- get_engine (Some app) bind;
      let tables := get_tables_for_bind bind in
      binds_loop app binds
        (dict_update retval
           (dict_update [] (map (fun table => (table, engine)) tables)))
  end.

Definition get_binds (app : option application)
  : M (list (Table * option engine)) :=
  do app <- get_app app;
  do secondary <- (fun w => (configured_binds (config w), w));
  binds_loop app (None :: secondary) [].

Definition record_call (c : schema_call) : M unit :=
  fun w => (Ok tt, {| config := config w; extensions := extensions w;
                      self_app := self_app w; next_id := next_id w;
                      warned := warned w; calls := calls w ++ [c] |}).

(** The loop of [_execute_for_all_tables] over the selected binds. *)
Fixpoint execute_loop (app : application) (binds : list bind_id)
  (operation : schema_op) (skip_tables : bool) : M unit :=
  match binds with
  | [] => ret tt
  | bind :: binds =>
      let extra := if skip_tables then None
                   else Some (get_tables_for_bind bind) in
      do engine <- get_engine (Some app) bind;
      do _ <- record_call {| call_op := operation; call_bind := engine;
                             call_tables := extra |};
      execute_loop app binds operation skip_tables
  end.

Definition _execute_for_all_tables (app : option application) (bind : selector)
  (operation : schema_op) (skip_tables : bool) : M unit :=
  do app <- get_app app;
  do binds <- match bind with
              | SelStr s =>
                  if String.eqb s "__all__"
                  then do secondary <- (fun w => (configured_binds (config w), w));
                       ret (None :: secondary)
                  else ret [Some s]
              | SelNone => ret [None]
              | SelList l => ret l
              end;
  execute_loop app binds operation skip_tables.

Definition create_all (bind : selector) (app : option application) : M unit :=
  _execute_for_all_tables app bind op_create_all false.

Definition drop_all (bind : selector) (app : option application) : M unit :=
  _execute_for_all_tables app bind op_drop_all false.

Definition reflect (bind : selector) (app : option application) : M unit :=
  _execute_for_all_tables app bind op_reflect true.

End SQLAlchemy.

(* ===================================================================== *)
(** ** SQLAlchemy.init_app and the response middleware *)
(* ===================================================================== *)

Definition fallback_uri : string := "sqlite:///:memory:".

Definition no_uri_warning : string :=
  ("Neither SQLALCHEMY_DATABASE_URI nor SQLALCHEMY_BINDS is set. Defaulting SQLALCHEMY_DATABASE_URI to "
   ++ String dquote (fallback_uri ++ String dquote "."))%string.

(** [app.config[key] = app.config.get(key) or fallback] *)
Definition config_default (key : string) (fallback : pyval)
  (cfg : gmap string pyval) : gmap string pyval :=
  <[key := py_or (config_get cfg key) fallback]> cfg.

(** The ten assignments of [init_app], in the order of the source. *)
Definition init_config (cfg : gmap string pyval) : gmap string pyval :=
  let cfg := config_default "SQLALCHEMY_DATABASE_URI" (VStr fallback_uri) cfg in
  let cfg := config_default "SQLALCHEMY_BINDS" VNone cfg in
  let cfg := config_default "SQLALCHEMY_NATIVE_UNICODE" VNone cfg in
  let cfg := config_default "SQLALCHEMY_ECHO" (VBool false) cfg in
  let cfg := config_default "SQLALCHEMY_RECORD_QUERIES" VNone cfg in
  let cfg := config_default "SQLALCHEMY_POOL_SIZE" VNone cfg in
  let cfg := config_default "SQLALCHEMY_POOL_TIMEOUT" VNone cfg in
  let cfg := config_default "SQLALCHEMY_POOL_RECYCLE" VNone cfg in
  let cfg := config_default "SQLALCHEMY_MAX_OVERFLOW" VNone cfg in
  config_default "SQLALCHEMY_COMMIT_ON_RESPONSE" (VBool false) cfg.

(** [init_app(app)]: the warning looks at which keys are present, the
    defaults at what they hold; the extension state is created anew. *)
Definition init_app (app : application) : M unit :=
  fun w =>
    let cfg := config w in
    let warned :=
      if decide (cfg !! "SQLALCHEMY_DATABASE_URI" = None /\
                 cfg !! "SQLALCHEMY_BINDS" = None)
      then warned w ++ [no_uri_warning] else warned w in
    (Ok tt, {| config := init_config cfg; extensions := Some ∅;
               self_app := true; next_id := next_id w;
               warned := warned; calls := calls w |}).

(** The options of the configuration surface, with their defaults. *)
Definition recognized_options : list (string * pyval) :=
  [ ("SQLALCHEMY_DATABASE_URI", VStr fallback_uri);
    ("SQLALCHEMY_BINDS", VNone);
    ("SQLALCHEMY_NATIVE_UNICODE", VNone);
    ("SQLALCHEMY_ECHO", VBool false);
    ("SQLALCHEMY_RECORD_QUERIES", VNone);
    ("SQLALCHEMY_POOL_SIZE", VNone);
    ("SQLALCHEMY_POOL_TIMEOUT", VNone);
    ("SQLALCHEMY_POOL_RECYCLE", VNone);
    ("SQLALCHEMY_MAX_OVERFLOW", VNone);
    ("SQLALCHEMY_COMMIT_ON_RESPONSE", VBool false) ].

(** *** The scoped session as the middleware sees it

    The three methods the middleware calls on [self.session], and what each
    of them does when called: return ([None]) or raise. *)
Inductive session_call := Commit | Rollback | Remove.

Record session_behaviour := {
  commit_raises : option exn;
  rollback_raises : option exn;
  remove_raises : option exn
}.

(** A computation over the list of session calls made so far. *)
Definition T (A : Type) : Type := list session_call -> result A * list session_call.

Definition call_session (s : session_behaviour) (c : session_call) : T unit :=
  fun trace =>
    let outcome := match c with
                   | Commit => commit_raises s
                   | Rollback => rollback_raises s
                   | Remove => remove_raises s
                   end in
    (match outcome with Some e => Raise e | None => Ok tt end, trace ++ [c]).

(** [try: body / except: handler], where the handler is handed the
    exception in flight so that a plain [raise] can raise it again. *)
Definition try_except {A} (body : T A) (handler : exn -> T A) : T A :=
  fun trace => match body trace with
               | (Ok a, trace) => (Ok a, trace)
               | (Raise e, trace) => handler e trace
               end.

(** [try: body / finally: final]: [final] always runs; if it raises, its
    exception replaces the outcome of [body]. *)
Definition try_finally {A} (body : T A) (final : T unit) : T A :=
  fun trace => match body trace with
               | (r, trace) =>
                   match final trace with
                   | (Ok _, trace) => (r, trace)
                   | (Raise e, trace) => (Raise e, trace)
                   end
               end.

(** The middleware [shutdown_session(request, response)] registered by
    [init_app]; [cfg] is [app.config] when the response is processed. *)
Definition shutdown_session (cfg : gmap string pyval) (s : session_behaviour)
  : T unit :=
  try_finally
    (try_except
       (fun trace =>
          match config_item cfg "SQLALCHEMY_COMMIT_ON_RESPONSE" with
          | Raise e => (Raise e, trace)
          | Ok flag => if truthy flag then call_session s Commit trace
                       else (Ok tt, trace)
          end)
       (fun e trace =>
          match call_session s Rollback trace with
          | (Ok _, trace) => (Raise e, trace)
          | (Raise e', trace) => (Raise e', trace)
          end))
    (call_session s Remove).

(* ===================================================================== *)
(** ** The scope manager *)
(* ===================================================================== *)

Section ScopedSession.
Context `{Countable K}.

(** Modelled from the spec: [scoped_session], the object
    [create_scoped_session] returns, belongs to the wrapped library and its
    code is not in this repository.  Section 4.3: one unit-of-work instance
    per distinct scope identity, memoized until explicitly released; removal
    drops the memoized instance for that identity and the next access under
    the same identity constructs a fresh one.  [registry] is the memo,
    [constructed] the number of instances constructed so far, which is also
    the identity the next one gets. *)
Record scoped_session := {
  registry : gmap K nat;
  constructed : nat
}.

(** Modelled from the spec: [create_scoped_session] returns a scope manager
    with nothing memoized. *)
Definition create_scoped_session : scoped_session :=
  {| registry := ∅; constructed := 0 |}.

(** Modelled from the spec: an access to the scoped session under the
    identity [k] (what [scopefunc()] returns at that moment). *)
Definition session_access (k : K) (ss : scoped_session) : nat * scoped_session :=
  match registry ss !! k with
  | Some i => (i, ss)
  | None => (constructed ss,
             {| registry := <[k := constructed ss]> (registry ss);
                constructed := S (constructed ss) |})
  end.

(** Modelled from the spec: [remove()] under the identity [k]. *)
Definition session_remove (k : K) (ss : scoped_session) : scoped_session :=
  {| registry := delete k (registry ss); constructed := constructed ss |}.

Inductive scope_op :=
| Access (k : K)
| Release (k : K).

(** A history of accesses and removals: the instances the accesses
    returned, oldest first, and the scope manager afterwards. *)
Fixpoint run_scope (ops : list scope_op) (ss : scoped_session)
  : list nat * scoped_session :=
  match ops with
  | [] => ([], ss)
  | Access k :: ops =>
      let '(i, ss) := session_access k ss in
      let '(seen, ss) := run_scope ops ss in
      (i :: seen, ss)
  | Release k :: ops => run_scope ops (session_remove k ss)
  end.

End ScopedSession.
Arguments scoped_session K {_ _}.
Arguments scope_op K : clear implicits.

(* ===================================================================== *)
(** ** Tables, relationships and sessions made through the extension *)
(* ===================================================================== *)

(** A positional argument of [db.Table(...)]. *)
Inductive table_arg :=
| ArgName (name : string)
| ArgMetadata
| ArgColumn (name : string)
| ArgOther (n : nat).

(** The function [_make_table(db)] returns, called with positional
    arguments [args] and keyword arguments: the positional arguments and
    the [info] dictionary handed to [sqlalchemy.Table].  [info] is what
    [kwargs.pop('info', None)] gives: [None] when the keyword is absent or
    [None]. *)
Definition _make_table (args : list table_arg)
    (info : option (list (string * pyval)))
  : list table_arg * list (string * pyval) :=
  let args := match args with
              | a0 :: ArgColumn c :: rest =>
                  a0 :: ArgMetadata :: ArgColumn c :: rest
              | _ => args
              end in
  let info := match info with
              | Some (kv :: i) => kv :: i
              | _ => []
              end in
  (args, dict_setdefault info "bind_key" VNone).

(** A keyword value of [relationship(...)] and of the session options: a
    class, a string, a pair of a name and a keyword dictionary (what
    [backref(name, **kw)] returns), a function, or a value that cannot be
    indexed and is none of these. *)
#[local] Unset Elimination Schemes.
Inductive kwval :=
| KClass (name : string)
| KStr (s : string)
| KPair (name : string) (d : list (string * kwval))
| KFunc (name : string)
| KOpaque (n : nat).
#[local] Set Elimination Schemes.

Definition _set_default_query_class (d : list (string * kwval)) (cls : string)
  : list (string * kwval) :=
  match dict_get d "query_class" with
  | Some _ => d
  | None => dict_set d "query_class" (KClass cls)
  end.

(** [newfn] of [_wrap_with_default_query_class(fn, cls)]: the keyword
    arguments [fn] is called with.  A string [backref] is rebound to a new
    pair that only the local variable names; a pair's dictionary is updated
    where it is, inside [kwargs]. *)
Definition _wrap_with_default_query_class (cls : string)
    (kwargs : list (string * kwval)) : result (list (string * kwval)) :=
  let kwargs := _set_default_query_class kwargs cls in
  match dict_get kwargs "backref" with
  | None => Ok kwargs
  | Some (KStr s) => Ok kwargs
  | Some (KPair name d) =>
      Ok (dict_set kwargs "backref"
            (KPair name (_set_default_query_class d cls)))
  | Some _ => Raise TypeError
  end.

(** [d.pop(k, ...)]: the dictionary without the key. *)
Fixpoint dict_remove {K V} `{EqDecision K} (d : list (K * V)) (k : K)
  : list (K * V) :=
  match d with
  | [] => []
  | (k', v) :: d' =>
      if decide (k' = k) then dict_remove d' k else (k', v) :: dict_remove d' k
  end.

Definition current_task : kwval := KFunc "asyncio.current_task".

(** The option handling of [create_scoped_session(options)]: the scope
    function, and the options [create_session] passes to [sessionmaker];
    [Query] is [self.Query]. *)
Definition scoped_session_options (Query : string)
    (options : option (list (string * kwval)))
  : kwval * list (string * kwval) :=
  let options := default [] options in
  let scopefunc := default current_task (dict_get options "scopefunc") in
  let options := dict_remove options "scopefunc" in
  let options :=
    dict_set options "query_cls"
      (default (KClass Query) (dict_get options "query_cls")) in
  (scopefunc, options).



Section Session.
Context `{Library}.
Variable self : SQLAlchemy.



End Session.

(** An attribute value of the extension object: one a module exports, one
    of the object's own, the table factory, a relationship function wrapped
    with the default query class, the event module. *)
Inductive attr :=
| FromModule (module name : string)
| Own (n : nat)
| TableFactory
| WithQueryClass (fn : attr)
| EventModule.

(** [for key in module.__all__: if not hasattr(obj, key): setattr(...)] *)
Definition include_module (module : string) (all : list string)
    (obj : gmap string attr) : gmap string attr :=
  fold_left (fun obj key => match obj !! key with
                            | Some _ => obj
                            | None => <[key := FromModule module key]> obj
                            end) all obj.

(** What [_include_sqlalchemy] ends with: the attributes of the object, or
    the attribute error of reading one the object does not have. *)
Inductive included :=
| Included (obj : gmap string attr)
| AttributeError (name : string).

(** [obj.name = _wrap_with_default_query_class(obj.name, cls)] *)
Definition wrap_attr (name : string) (obj : gmap string attr) : included :=
  match obj !! name with
  | Some fn => Included (<[name := WithQueryClass fn]> obj)
  | None => AttributeError name
  end.

(** [_include_sqlalchemy(obj, cls)], given the names the two modules
    export. *)
Definition _include_sqlalchemy (sqlalchemy_all orm_all : list string)
    (obj : gmap string attr) : included :=
  let obj := include_module "sqlalchemy" sqlalchemy_all obj in
  let obj := include_module "sqlalchemy.orm" orm_all obj in
  let obj := <["Table" := TableFactory]> obj in
  match wrap_attr "relationship" obj with
  | AttributeError name => AttributeError name
  | Included obj =>
      match wrap_attr "relation" obj with
      | AttributeError name => AttributeError name
      | Included obj =>
          match wrap_attr "dynamic_loader" obj with
          | AttributeError name => AttributeError name
          | Included obj => Included (<["event" := EventModule]> obj)
          end
      end
  end.

(* ===================================================================== *)
(** ** A stand-in for the library, to run the model on examples *)
(* ===================================================================== *)

(** [split_on sep s]: the text before and after the first [sep] in [s]. *)
Fixpoint split_on (sep s : string) : option (string * string) :=
  if String.prefix sep s
  then Some (EmptyString,
             String.substring (String.length sep)
                              (String.length s - String.length sep)%nat s)
  else match s with
       | EmptyString => None
       | String c s' =>
           match split_on sep s' with
           | Some (before, after) => Some (String c before, after)
           | None => None
           end
       end.

Fixpoint split_char (c : ascii) (s : string) : list string :=
  match s with
  | EmptyString => [EmptyString]
  | String a s' =>
      if Ascii.eqb a c then EmptyString :: split_char c s'
      else match split_char c s' with
           | [] => [String a EmptyString]
           | h :: t => String a h :: t
           end
  end.

Definition parse_query (q : string) : list (string * string) :=
  fold_left (fun acc item =>
               match split_on "=" item with
               | Some (k, v) => dict_set acc k v
               | None => acc
               end) (split_char "&"%char q) [].

(** URLs of the shape [driver://authority/database?key=value&...]. *)
Definition parse_url (s : string) : option URL :=
  match split_on "://" s with
  | None => None
  | Some (driver, rest) =>
      let '(rest, q) := match split_on "?" rest with
                        | Some (r, q) => (r, parse_query q)
                        | None => (rest, [])
                        end in
      Some {| drivername := driver;
              database := match split_on "/" rest with
                          | Some (_, db) => Some db
                          | None => None
                          end;
              query := q |}
  end.

(** A library that parses such URLs, refuses everything else and
    constructs every engine it is asked for. *)
Definition plain_library : Library :=
  {| make_url := fun v => match v with
                          | VStr s => match parse_url s with
                                      | Some u => Ok u
                                      | None => Raise (LibraryError 0)
                                      end
                          | _ => Raise (LibraryError 0)
                          end;
     create_engine_error := fun _ _ => None |}.

(** A world before [init_app]: the configuration as the user wrote it. *)
Definition fresh_world (cfg : gmap string pyval) : world :=
  {| config := cfg; extensions := None; self_app := false;
     next_id := 0; warned := []; calls := [] |}.

(** The world after [init_app] on that configuration. *)
Definition initialized (cfg : gmap string pyval) : world :=
  snd (init_app App (fresh_world cfg)).

Definition reporting_config : gmap string pyval :=
  {[ "SQLALCHEMY_DATABASE_URI" := VStr "sqlite:///:memory:";
     "SQLALCHEMY_BINDS" := VDict [("reporting", "sqlite:////tmp/reporting.db");
                                  ("archive", "mysql://u@h/archive")] ]}.

Definition users_table : Table :=
  {| t_name := "users"; t_info := [("bind_key", VNone)] |}.
Definition plain_table : Table :=
  {| t_name := "plain"; t_info := [] |}.
Definition events_table : Table :=
  {| t_name := "events"; t_info := [("bind_key", VStr "reporting")] |}.
Definition old_table : Table :=
  {| t_name := "old"; t_info := [("bind_key", VStr "archive")] |}.

Definition sample_db : SQLAlchemy :=
  {| use_native_unicode := VBool true;
     tables := [users_table; events_table; plain_table; old_table] |}.

(* ===================================================================== *)
(** * Notions the properties are stated with *)
(* ===================================================================== *)

(** Characters [repr] leaves as they are inside single quotes. *)
Definition plain_char (c : ascii) : bool :=
  let n := N_of_ascii c in
  ((32 <=? n) && (n <? 127) && negb (n =? 39) && negb (n =? 92))%N.

Fixpoint plain_name (s : string) : bool :=
  match s with
  | EmptyString => true
  | String c s' => plain_char c && plain_name s'
  end.

Section ScopeNotions.
Context `{Countable K}.
Implicit Types (ss : scoped_session K) (k : K).

(** Every memoized instance has been constructed, and no instance is
    memoized under two identities. *)
Definition scope_inv ss : Prop :=
  (forall k i, registry ss !! k = Some i -> (i < constructed ss)%nat) /\
  (forall k1 k2 i, registry ss !! k1 = Some i -> registry ss !! k2 = Some i ->
                   k1 = k2).

(** The instance [i] was constructed for the identity [k]. *)
Definition constructed_for (i : nat) k ss : Prop :=
  (i < constructed ss)%nat /\
  forall k', registry ss !! k' = Some i -> k' = k.

End ScopeNotions.

(** The keyword a configuration entry becomes: none when it is [None]. *)
Definition configured (cfg : gmap string pyval) (configkey : string)
  : option optval :=
  if decide (config_get cfg configkey = VNone) then None
  else Some (OV (config_get cfg configkey)).

(** The last step of [apply_driver_hacks], which every driver goes
    through: it touches [use_native_unicode] only. *)
Definition native_unicode_step (unicode : pyval) (cfg : gmap string pyval)
    (info : URL) (options : gmap string optval)
  : result (URL * gmap string optval) :=
  match config_item cfg "SQLALCHEMY_NATIVE_UNICODE" with
  | Raise e => Raise e
  | Ok unu =>
      let unu := if decide (unu = VNone) then unicode else unu in
      if negb (truthy unu)
      then Ok (info, <["use_native_unicode" := OV (VBool false)]> options)
      else Ok (info, options)
  end.

(** [if echo: options['echo'] = echo] *)
Definition with_echo (echo : pyval) (options : gmap string optval)
  : gmap string optval :=
  if truthy echo then <["echo" := OV echo]> options else options.

(** The connector a successful construction leaves behind. *)
Definition connected (self : connector) (rv : engine) (uri echo : pyval)
  : connector :=
  {| _engine := Some rv; _connected_for := Some (uri, echo);
     _bind := _bind self |}.


(** The driver-specific part of [apply_driver_hacks], before the unicode
    step. *)
Definition driver_step (info : URL) (options : gmap string optval)
  : result (URL * gmap string optval) :=
  if String.prefix "mysql" (drivername info) then
    let info := set_query info (dict_setdefault (query info) "charset" "utf8") in
    if negb (String.eqb (drivername info) "mysql+gaerdbms") then
      let options := options_setdefault "pool_size" (OV (VInt 10)) options in
      let options := options_setdefault "pool_recycle" (OV (VInt 7200)) options in
      Ok (info, options)
    else Ok (info, options)
  else if String.eqb (drivername info) "sqlite" then
    let pool_size := options !! "pool_size" in
    if in_memory_database (database info) then
      let options := <["poolclass" := OPool StaticPool]> options in
      let options := match options !! "connect_args" with
                     | None => <["connect_args" := OArgs []]> options
                     | Some _ => options
                     end in
      let options := alter set_check_same_thread "connect_args" options in
      if opt_is_zero pool_size then Raise (RuntimeError in_memory_message)
      else Ok (info, options)
    else if opt_not pool_size then
      Ok (info, <["poolclass" := OPool NullPool]> options)
    else Ok (info, options)
  else Ok (info, options).

(** An application can be resolved: one is passed or [self.app] is set. *)
Definition app_available (app : option application) (w : world) : Prop :=
  is_Some app \/ self_app w = true.

(** The world once the connector under [bind] has been used. *)
Definition store_connector (w : world) (connectors : gmap bind_id connector)
    (bind : bind_id) (c : connector) (next : nat) : world :=
  {| config := config w; extensions := Some (<[bind := c]> connectors);
     self_app := self_app w; next_id := next;
     warned := warned w; calls := calls w |}.

Definition zero_pool_config : gmap string pyval :=
  {[ "SQLALCHEMY_DATABASE_URI" := VStr "sqlite:///:memory:";
     "SQLALCHEMY_POOL_SIZE" := VInt 0 ]}.

(** Every step of constructing the engine of the bind [b] succeeds under
    the configuration [cfg]. *)
Definition constructible `{Library} (unicode : pyval)
    (cfg : gmap string pyval) (b : bind_id) : Prop :=
  exists uri info info' options,
    EngineConnector.get_uri cfg (new_connector b) = Ok uri /\
    make_url uri = Ok info /\
    apply_driver_hacks unicode cfg info (apply_pool_defaults cfg ∅)
      = Ok (info', options) /\
    create_engine_error info'
      (with_echo (config_get cfg "SQLALCHEMY_ECHO") options) = None.

(** Each cached connector sits under its own bind, and one that has
    recorded a pair holds an engine. *)
Definition world_wf (w : world) : Prop :=
  forall connectors b c,
    extensions w = Some connectors -> connectors !! b = Some c ->
    _bind c = b /\ (is_Some (_connected_for c) -> is_Some (_engine c)).

(** The cache holds the engine [rv] for the bind [b], recorded for the
    URI and echo flag the configuration gives now. *)
Definition holds (w : world) (b : bind_id) (rv : engine) : Prop :=
  exists connectors c uri,
    extensions w = Some connectors /\ connectors !! b = Some c /\
    _engine c = Some rv /\
    EngineConnector.get_uri (config w) c = Ok uri /\
    same_connection uri (config_get (config w) "SQLALCHEMY_ECHO")
                    (_connected_for c) = true.

(** The public operation named by [op]. *)
Definition schema_operation `{Library} (self : SQLAlchemy) (op : schema_op)
    (bind : selector) (app : option application) : M unit :=
  match op with
  | op_create_all => create_all self bind app
  | op_drop_all => drop_all self bind app
  | op_reflect => reflect self bind app
  end.

(** The call an operation is expected to make for the bind [b] whose
    engine is [rv]: [reflect] passes no tables. *)
Definition expected_call (self : SQLAlchemy) (op : schema_op)
    (b : bind_id) (rv : engine) : schema_call :=
  {| call_op := op; call_bind := Some rv;
     call_tables := match op with
                    | op_reflect => None
                    | _ => Some (get_tables_for_bind self b)
                    end |}.

(** The secondary-URI mapping of a configuration is [d]. *)
Definition secondary_binds (cfg : gmap string pyval)
    (d : list (string * string)) : Prop :=
  config_get cfg "SQLALCHEMY_BINDS" = VDict d \/
  (truthy (config_get cfg "SQLALCHEMY_BINDS") = false /\ d = []).

(** The loop body of [get_binds] for the bind [b] and its engine. *)
Definition assign_tables (self : SQLAlchemy)
    (retval : list (Table * option engine)) (b : bind_id)
    (rv : option engine) : list (Table * option engine) :=
  dict_update retval
    (dict_update [] (map (fun table => (table, rv))
                         (get_tables_for_bind self b))).

(** The mapping the loop builds from the binds and their engines. *)
Definition routing (self : SQLAlchemy) (pairs : list (bind_id * engine))
    (retval : list (Table * option engine)) : list (Table * option engine) :=
  fold_left (fun acc p => assign_tables self acc (fst p) (Some (snd p)))
            pairs retval.

(** The rows owned by the bind [b] with its engine. *)
Definition rows (self : SQLAlchemy) (p : bind_id * engine)
  : list (Table * option engine) :=
  map (fun table => (table, Some (snd p))) (get_tables_for_bind self (fst p)).

Definition bad_pool_config : gmap string pyval :=
  <["SQLALCHEMY_POOL_SIZE" := VInt 0]> (init_config zero_pool_config).

Definition postgres_url : URL :=
  {| drivername := "postgresql"; database := Some "shop"; query := [] |}.

(** The bind attribute a caller of [db.Table] gave, [None] if none. *)
Definition given_bind_key (info : option (list (string * pyval))) : pyval :=
  match info with
  | Some i => default VNone (dict_get i "bind_key")
  | None => VNone
  end.

(** The attribute [k] after the two copying loops: the object's own if it
    has one, else what [sqlalchemy] exports under the name, else what
    [sqlalchemy.orm] exports. *)
Definition provided (sqlalchemy_all orm_all : list string)
    (obj : gmap string attr) (k : string) : option attr :=
  match obj !! k with
  | Some a => Some a
  | None =>
      if decide (k ∈ sqlalchemy_all) then Some (FromModule "sqlalchemy" k)
      else if decide (k ∈ orm_all) then Some (FromModule "sqlalchemy.orm" k)
      else None
  end.

(** The relationship functions given the default query class, in the
    order the code wraps them. *)
Definition wrapped_names : list string :=
  ["relationship"; "relation"; "dynamic_loader"].

(* ===================================================================== *)
(** * Properties *)
(* ===================================================================== *)

(** ** Python equality *)

Lemma string_eqb_decide (s t : string) : String.eqb s t = bool_decide (s = t).
Proof.
  destruct (String.eqb_spec s t) as [->|Hne].
  - by rewrite bool_decide_eq_true_2.
  - by rewrite bool_decide_eq_false_2.
Qed.

Lemma dict_get_in {K V} `{EqDecision K} (d : list (K * V)) k v :
  dict_get d k = Some v -> (k, v) ∈ d.
Proof.
  induction d as [|[k' v'] d IH]; simpl; [done|].
  destruct (decide (k' = k)) as [->|Hne]; intros Hget.
  - injection Hget as ->. apply list_elem_of_here.
  - apply list_elem_of_further. by apply IH.
Qed.

Lemma dict_get_nodup {K V} `{EqDecision K} (d : list (K * V)) k v :
  NoDup (dict_keys d) -> (k, v) ∈ d -> dict_get d k = Some v.
Proof.
  induction d as [|[k' v'] d IH]; simpl; intros Hnd Hin.
  - by apply elem_of_nil in Hin.
  - apply NoDup_cons in Hnd as [Hfresh Hnd].
    apply elem_of_cons in Hin as [Heq|Hin].
    + injection Heq as -> ->. by rewrite decide_True.
    + destruct (decide (k' = k)) as [->|Hne]; [|by apply IH].
      exfalso. apply Hfresh. unfold dict_keys.
      apply list_elem_of_fmap. by exists (k, v).
Qed.

Lemma dict_eqb_refl (d : list (string * string)) : dict_eqb d d = true.
Proof.
  unfold dict_eqb. apply andb_true_intro.
  split; apply forallb_forall; intros k _; by apply bool_decide_eq_true_2.
Qed.

Lemma py_eq_refl (v : pyval) : py_eq v v = true.
Proof.
  destruct v as [|b|n|s|d]; simpl.
  - done.
  - by destruct b.
  - apply Z.eqb_refl.
  - apply String.eqb_refl.
  - apply dict_eqb_refl.
Qed.

(** Against a bind identifier, [==] is exact equality. *)
Lemma py_eq_bind_value (v : pyval) (bind : bind_id) :
  py_eq v (bind_value bind) = bool_decide (v = bind_value bind).
Proof.
  destruct bind as [b|]; destruct v as [|c|n|s|d]; simpl;
    try reflexivity; try (by destruct c).
  rewrite string_eqb_decide. apply bool_decide_ext. split; congruence.
Qed.

(** ** Table Bind Resolver *)

Lemma tables_loop_filter (bind : bind_id) (todo result : list Table) :
  tables_loop bind todo result =
  result ++ filter (fun table => bind_key table = bind_value bind) todo.
Proof.
  revert result. induction todo as [|table todo IH]; intros result; simpl.
  - by rewrite app_nil_r.
  - rewrite py_eq_bind_value, filter_cons.
    destruct (decide (bind_key table = bind_value bind)) as [Heq|Hne].
    + rewrite bool_decide_eq_true_2 by done.
      rewrite IH. by rewrite <- app_assoc.
    + rewrite bool_decide_eq_false_2 by done. apply IH.
Qed.

(** C6: [get_tables_for_bind(bind)] is the declared tables whose bind
    attribute [info.get('bind_key')] is exactly [bind] ([None] for the
    primary database), in declaration order: every returned table is a
    declared table with that attribute, and every declared table with that
    attribute is returned. *)
Theorem get_tables_for_bind_exact (self : SQLAlchemy) (bind : bind_id) :
  get_tables_for_bind self bind =
    filter (fun table => bind_key table = bind_value bind) (tables self) /\
  forall table : Table,
    table ∈ get_tables_for_bind self bind <->
    table ∈ tables self /\ bind_key table = bind_value bind.
Proof.
  assert (Hfilter : get_tables_for_bind self bind =
            filter (fun table => bind_key table = bind_value bind) (tables self)).
  { unfold get_tables_for_bind. by rewrite tables_loop_filter. }
  split; [exact Hfilter|].
  intros table. rewrite Hfilter, list_elem_of_filter. tauto.
Qed.

Example get_tables_for_bind_primary :
  get_tables_for_bind sample_db None = [users_table; plain_table].
Proof. reflexivity. Qed.

Example get_tables_for_bind_reporting :
  get_tables_for_bind sample_db (Some "reporting") = [events_table].
Proof. reflexivity. Qed.

(** ** Engine Connector: resolving the URI *)

Lemma repr_char_plain (c : ascii) :
  plain_char c = true -> repr_char squote c = String c EmptyString.
Proof.
  unfold plain_char, repr_char. intros Hc.
  apply andb_prop in Hc as [Hc H92]. apply andb_prop in Hc as [Hc H39].
  apply andb_prop in Hc as [Hlo Hhi].
  apply N.leb_le in Hlo. apply N.ltb_lt in Hhi.
  apply negb_true_iff, N.eqb_neq in H39, H92.
  assert (Ascii.eqb c "\"%char = false) as ->.
  { apply Ascii.eqb_neq. intros ->. by apply H92. }
  assert (Ascii.eqb c squote = false) as ->.
  { apply Ascii.eqb_neq. intros ->. by apply H39. }
  assert ((N_of_ascii c =? 10)%N = false) as -> by (apply N.eqb_neq; lia).
  assert ((N_of_ascii c =? 13)%N = false) as -> by (apply N.eqb_neq; lia).
  assert ((N_of_ascii c =? 9)%N = false) as -> by (apply N.eqb_neq; lia).
  assert ((N_of_ascii c <? 32)%N = false) as -> by (apply N.ltb_ge; lia).
  assert ((N_of_ascii c =? 127)%N = false) as ->
    by (apply N.eqb_neq; lia).
  reflexivity.
Qed.

Lemma has_char_plain (s : string) :
  plain_name s = true -> has_char squote s = false.
Proof.
  induction s as [|c s IH]; cbn [has_char plain_name]; [done|].
  intros [Hc Hs]%andb_prop. rewrite (IH Hs), orb_false_r.
  apply Ascii.eqb_neq. intros <-. by vm_compute in Hc.
Qed.

Lemma repr_body_plain (s : string) :
  plain_name s = true -> repr_body squote s = s.
Proof.
  induction s as [|c s IH]; cbn [repr_body plain_name]; [done|].
  intros [Hc Hs]%andb_prop. by rewrite (repr_char_plain c Hc), (IH Hs).
Qed.

Lemma py_repr_plain (s : string) :
  plain_name s = true ->
  py_repr s = String squote (s ++ String squote EmptyString)%string.
Proof.
  intros Hs. unfold py_repr.
  rewrite (has_char_plain s Hs). cbn [andb].
  by rewrite (repr_body_plain s Hs).
Qed.

(** C5: with [d] the secondary-URI mapping of the configuration (empty
    when [SQLALCHEMY_BINDS] is unset or falsy), a connector for the bind
    name [b] resolves the URI recorded under [b] when [b] is declared in
    [d]; when it is not, [get_uri] and with it [get_engine] fail with the
    assertion error (the spec's ConfigurationError) whose message holds
    [repr(b)], which quotes [b] itself when [b] is a plain name, and the
    connector is left as it was. *)
Theorem unregistered_bind_fails `{Library} (unicode : pyval)
    (cfg : gmap string pyval) (self : connector) (next : nat)
    (b : string) (d : list (string * string)) :
  _bind self = Some b ->
  config_get cfg "SQLALCHEMY_BINDS" = VDict d \/
    (truthy (config_get cfg "SQLALCHEMY_BINDS") = false /\ d = []) ->
  match dict_get d b with
  | Some uri => EngineConnector.get_uri cfg self = Ok (VStr uri)
  | None =>
      EngineConnector.get_uri cfg self
        = Raise (AssertionError (bind_not_specified b)) /\
      EngineConnector.get_engine unicode cfg self next
        = (Raise (AssertionError (bind_not_specified b)), self, next) /\
      (exists before after,
          bind_not_specified b = (before ++ py_repr b ++ after)%string) /\
      (plain_name b = true ->
       py_repr b = String squote (b ++ String squote EmptyString)%string)
  end.
Proof.
  intros Hbind Hbinds.
  assert (Huri : EngineConnector.get_uri cfg self =
                 match dict_get d b with
                 | Some uri => Ok (VStr uri)
                 | None => Raise (AssertionError (bind_not_specified b))
                 end).
  { unfold EngineConnector.get_uri. rewrite Hbind.
    destruct Hbinds as [Hd|[Hfalsy ->]].
    - rewrite Hd. destruct d as [|kv d]; [done|]. reflexivity.
    - by rewrite Hfalsy. }
  destruct (dict_get d b) as [uri|]; [exact Huri|].
  split; [exact Huri|]. split; [|split].
  - unfold EngineConnector.get_engine. by rewrite Huri.
  - by eexists "Bind "%string, _.
  - apply py_repr_plain.
Qed.

Lemma unregistered_bind_fails_witness :
  EngineConnector.get_uri reporting_config (new_connector (Some "reporting"))
    = Ok (VStr "sqlite:////tmp/reporting.db") /\
  EngineConnector.get_uri reporting_config (new_connector (Some "missing"))
    = Raise (AssertionError
        "Bind 'missing' is not specified. Set it in the SQLALCHEMY_BINDS configuration variable").
Proof.
  split.
  - exact (@unregistered_bind_fails plain_library VNone reporting_config
             (new_connector (Some "reporting")) 0%nat "reporting" _
             eq_refl (or_introl eq_refl)).
  - exact (proj1 (@unregistered_bind_fails plain_library VNone reporting_config
             (new_connector (Some "missing")) 0%nat "missing" _
             eq_refl (or_introl eq_refl))).
Defined.

(** ** Lifecycle hook *)

Lemma call_session_trace (s : session_behaviour) (c : session_call)
    (trace : list session_call) :
  snd (call_session s c trace) = trace ++ [c].
Proof. reflexivity. Qed.

(** C3: whatever the session methods do, the last call the middleware
    makes is [remove()].  With commit-on-response configured, [commit()] is
    called first; when it returns, nothing else precedes the removal; when it
    raises [e], [rollback()] is called before the removal, and [e] itself
    is what the middleware raises once [rollback()] and [remove()] have
    returned.  With commit-on-response not configured, [remove()] is the
    only call. *)
Theorem shutdown_session_lifecycle (cfg : gmap string pyval)
    (s : session_behaviour) (trace : list session_call) :
  (exists before,
      snd (shutdown_session cfg s trace) = before ++ [Remove]) /\
  forall flag, cfg !! "SQLALCHEMY_COMMIT_ON_RESPONSE" = Some flag ->
    if truthy flag then
      match commit_raises s with
      | None =>
          snd (shutdown_session cfg s trace) = trace ++ [Commit; Remove] /\
          (remove_raises s = None ->
           fst (shutdown_session cfg s trace) = Ok tt)
      | Some e =>
          snd (shutdown_session cfg s trace)
            = trace ++ [Commit; Rollback; Remove] /\
          (rollback_raises s = None -> remove_raises s = None ->
           fst (shutdown_session cfg s trace) = Raise e)
      end
    else
      snd (shutdown_session cfg s trace) = trace ++ [Remove] /\
      (remove_raises s = None -> fst (shutdown_session cfg s trace) = Ok tt).
Proof.
  split.
  - unfold shutdown_session, try_finally, try_except, config_item.
    destruct (cfg !! "SQLALCHEMY_COMMIT_ON_RESPONSE") as [flag|];
      [destruct (truthy flag)|]; unfold call_session;
      destruct (commit_raises s), (rollback_raises s), (remove_raises s);
      simpl; eauto.
  - intros flag Hflag.
    unfold shutdown_session, try_finally, try_except, config_item.
    rewrite Hflag. destruct (truthy flag); unfold call_session.
    + destruct (commit_raises s) as [e|].
      * split.
        -- destruct (rollback_raises s), (remove_raises s); simpl;
             by rewrite <- !app_assoc.
        -- by intros -> ->.
      * split.
        -- destruct (remove_raises s); simpl; by rewrite <- !app_assoc.
        -- by intros ->.
    + split; [by destruct (remove_raises s)|by intros ->].
Qed.

Lemma shutdown_session_lifecycle_witness :
  shutdown_session {[ "SQLALCHEMY_COMMIT_ON_RESPONSE" := VBool true ]}
    {| commit_raises := Some (LibraryError 7); rollback_raises := None;
       remove_raises := None |} []
  = (Raise (LibraryError 7), [Commit; Rollback; Remove]).
Proof.
  pose proof (proj2 (shutdown_session_lifecycle
      {[ "SQLALCHEMY_COMMIT_ON_RESPONSE" := VBool true ]}
      {| commit_raises := Some (LibraryError 7); rollback_raises := None;
         remove_raises := None |} []) (VBool true) eq_refl) as [Htrace Hraise].
  specialize (Hraise eq_refl eq_refl).
  rewrite (surjective_pairing (shutdown_session _ _ _)).
  by rewrite Htrace, Hraise.
Defined.

(** ** Scope manager *)

Section ScopedSessionFacts.
Context `{Countable K}.
Implicit Types (ss : scoped_session K) (k : K) (ops : list (scope_op K)).

Lemma scope_inv_create : scope_inv (create_scoped_session (K:=K)).
Proof. split; simpl; intros *; by rewrite lookup_empty. Qed.

Lemma scope_inv_access k ss :
  scope_inv ss -> scope_inv (snd (session_access k ss)).
Proof.
  intros [Hlt Hinj]. unfold session_access.
  destruct (registry ss !! k) as [i|] eqn:Hk; simpl; [by split|].
  split; simpl.
  - intros k' i. rewrite lookup_insert. case_decide.
    + intros [= <-]. lia.
    + intros Hi%Hlt. lia.
  - intros k1 k2 i. rewrite !lookup_insert.
    repeat case_decide; subst; try done.
    + intros [= <-] Hi%Hlt. lia.
    + intros Hi%Hlt [= <-]. lia.
    + apply Hinj.
Qed.

Lemma scope_inv_remove k ss :
  scope_inv ss -> scope_inv (session_remove k ss).
Proof.
  intros [Hlt Hinj]. split; simpl.
  - intros k' i [_ Hi]%lookup_delete_Some. by eapply Hlt.
  - intros k1 k2 i [_ H1]%lookup_delete_Some [_ H2]%lookup_delete_Some.
    by eapply Hinj.
Qed.

Lemma scope_inv_run ops ss :
  scope_inv ss -> scope_inv (snd (run_scope ops ss)).
Proof.
  revert ss. induction ops as [|[k|k] ops IH]; intros ss Hinv; simpl.
  - done.
  - pose proof (scope_inv_access k ss Hinv) as Hinv'.
    destruct (session_access k ss) as [i ss1]. simpl in Hinv'.
    specialize (IH ss1 Hinv').
    by destruct (run_scope ops ss1) as [seen ss2].
  - apply IH. by apply scope_inv_remove.
Qed.

Lemma constructed_for_access i k k0 ss :
  constructed_for i k ss -> constructed_for i k (snd (session_access k0 ss)).
Proof.
  intros [Hlt Hown]. unfold session_access.
  destruct (registry ss !! k0) as [j|] eqn:Hk0; simpl; [by split|].
  split; simpl; [lia|].
  intros k'. rewrite lookup_insert. case_decide; [|by apply Hown].
  intros [= <-]. lia.
Qed.

Lemma constructed_for_run i k ops ss :
  constructed_for i k ss -> constructed_for i k (snd (run_scope ops ss)).
Proof.
  revert ss. induction ops as [|[k0|k0] ops IH]; intros ss Hown; simpl.
  - done.
  - pose proof (constructed_for_access i k k0 ss Hown) as Hown'.
    destruct (session_access k0 ss) as [j ss1]. simpl in Hown'.
    specialize (IH ss1 Hown').
    by destruct (run_scope ops ss1) as [seen ss2].
  - apply IH. destruct Hown as [Hlt Hown]. split; [done|].
    simpl. intros k' [_ Hk']%lookup_delete_Some. by apply Hown.
Qed.

Lemma access_constructed_for k ss :
  scope_inv ss ->
  constructed_for (fst (session_access k ss)) k (snd (session_access k ss)).
Proof.
  intros [Hlt Hinj]. unfold session_access.
  destruct (registry ss !! k) as [i|] eqn:Hk; simpl.
  - split; [by eapply Hlt|]. intros k' Hk'. by eapply Hinj.
  - split; simpl; [lia|].
    intros k'. rewrite lookup_insert. case_decide; [done|].
    intros Hk'%Hlt. lia.
Qed.

(** An identity keeps its instance while it is not released. *)
Lemma run_scope_keeps k i ops ss :
  registry ss !! k = Some i -> Release k ∉ ops ->
  registry (snd (run_scope ops ss)) !! k = Some i.
Proof.
  revert ss. induction ops as [|[k0|k0] ops IH]; intros ss Hk Hops; simpl.
  - done.
  - assert (registry (snd (session_access k0 ss)) !! k = Some i) as Hk'.
    { unfold session_access.
      destruct (registry ss !! k0) as [j|] eqn:Hk0; simpl; [done|].
      rewrite lookup_insert_ne; [done|]. intros ->. congruence. }
    destruct (session_access k0 ss) as [j ss1]. simpl in Hk'.
    assert (Release k ∉ ops) as Hops' by (intros ?; apply Hops; by right).
    specialize (IH ss1 Hk' Hops').
    by destruct (run_scope ops ss1) as [seen ss2].
  - apply IH.
    + simpl. rewrite lookup_delete_ne; [done|].
      intros ->. apply Hops. by left.
    + intros ?. apply Hops. by right.
Qed.

(** Every instance an access returned has been constructed by the end. *)
Lemma run_scope_seen ops ss :
  scope_inv ss ->
  (constructed ss <= constructed (snd (run_scope ops ss)))%nat /\
  forall i, i ∈ fst (run_scope ops ss) ->
            (i < constructed (snd (run_scope ops ss)))%nat.
Proof.
  revert ss. induction ops as [|[k|k] ops IH]; intros ss Hinv; simpl.
  - split; [lia|]. intros i Hi. by apply elem_of_nil in Hi.
  - pose proof (scope_inv_access k ss Hinv) as Hinv'.
    pose proof (access_constructed_for k ss Hinv) as [Hlt _].
    assert (constructed ss <= constructed (snd (session_access k ss)))%nat
      as Hmono.
    { unfold session_access. destruct (registry ss !! k); simpl; lia. }
    destruct (session_access k ss) as [j ss1]. simpl in *.
    destruct (IH ss1 Hinv') as [Hle Hseen].
    destruct (run_scope ops ss1) as [seen ss2]. simpl in *.
    split; [lia|].
    intros i [->|Hi]%elem_of_cons; [lia|by apply Hseen].
  - apply (IH (session_remove k ss)). by apply scope_inv_remove.
Qed.

(** C2: at any point of any history of accesses and removals, let [i] be
    the instance an access under the identity [k] returns, and let any
    further accesses and removals follow.  Then (1) as long as [k] was not
    removed in between, an access under [k] returns [i] again; (2) an
    access under a different identity [k'] returns an instance other than
    [i]; (3) after [remove()] under [k], the next access under [k] returns
    an instance that no access has returned before. *)
Theorem scoped_session_identity (history later : list (scope_op K)) (k : K) :
  let past := run_scope history create_scoped_session in
  let first := session_access k (snd past) in
  let now := run_scope later (snd first) in
  (Release k ∉ later -> fst (session_access k (snd now)) = fst first) /\
  (forall k', k' <> k -> fst (session_access k' (snd now)) <> fst first) /\
  let fresh := fst (session_access k (session_remove k (snd now))) in
  fresh <> fst first /\ (fresh ∉ fst past) /\ (fresh ∉ fst now).
Proof.
  intros past first now.
  assert (Hpast : scope_inv (snd past))
    by apply scope_inv_run, scope_inv_create.
  assert (Hfirst : scope_inv (snd first)) by by apply scope_inv_access.
  assert (Hnow : scope_inv (snd now)) by by apply scope_inv_run.
  pose proof (access_constructed_for k (snd past) Hpast) as Hown.
  fold first in Hown.
  pose proof (constructed_for_run _ _ later _ Hown) as Hown'.
  fold now in Hown'.
  assert (Hmemo : registry (snd first) !! k = Some (fst first)).
  { subst first. unfold session_access.
    destruct (registry (snd past) !! k) as [i|] eqn:Hk; simpl; [done|].
    by rewrite lookup_insert_eq. }
  split; [|split].
  - intros Hkept.
    pose proof (run_scope_keeps k _ later _ Hmemo Hkept) as Hk.
    fold now in Hk. unfold session_access. by rewrite Hk.
  - intros k' Hne Heq.
    destruct Hown' as [Hlt Hown'].
    unfold session_access in Heq.
    destruct (registry (snd now) !! k') as [j|] eqn:Hk'; simpl in Heq.
    + subst j. by apply Hown' in Hk'.
    + lia.
  - intros fresh.
    assert (Hfresh : fresh = constructed (snd now)).
    { subst fresh. unfold session_access. simpl.
      by rewrite lookup_delete_eq. }
    destruct (run_scope_seen history create_scoped_session scope_inv_create)
      as [_ Hseen_past]. fold past in Hseen_past.
    destruct (run_scope_seen later (snd first) Hfirst) as [Hle Hseen_now].
    fold now in Hle, Hseen_now.
    destruct Hown as [Hlt _].
    assert (constructed (snd past) <= constructed (snd first))%nat as Hle'.
    { subst first. unfold session_access.
      destruct (registry (snd past) !! k); simpl; lia. }
    rewrite Hfresh. split; [lia|]. split.
    + intros Hin%Hseen_past. lia.
    + intros Hin%Hseen_now. lia.
Qed.

End ScopedSessionFacts.

Lemma scoped_session_identity_witness :
  let ss := create_scoped_session (K:=nat) in
  let a := session_access 1%nat ss in
  let b := session_access 2%nat (snd a) in
  let a' := session_access 1%nat (snd b) in
  let a'' := session_access 1%nat (session_remove 1%nat (snd a')) in
  (fst a = 0 /\ fst b = 1 /\ fst a' = 0 /\ fst a'' = 2)%nat /\
  fst (session_access 1%nat (snd (run_scope [Access 2%nat] (snd a)))) = fst a.
Proof.
  split; [by vm_compute|].
  apply (proj1 (scoped_session_identity (K:=nat) [] [Access 2%nat] 1%nat)).
  by intros [=]%list_elem_of_singleton.
Defined.

(** ** Configuration defaults *)

Lemma config_default_lookup (key : string) (fallback : pyval)
    (cfg : gmap string pyval) (k : string) :
  config_default key fallback cfg !! k =
  if decide (key = k) then Some (py_or (config_get cfg key) fallback)
  else cfg !! k.
Proof. unfold config_default. apply lookup_insert. Qed.

Lemma config_get_default_ne (key : string) (fallback : pyval)
    (cfg : gmap string pyval) (k : string) :
  key <> k -> config_get (config_default key fallback cfg) k = config_get cfg k.
Proof.
  intros Hne. unfold config_get.
  by rewrite config_default_lookup, decide_False.
Qed.

Ltac config_keys :=
  repeat (rewrite config_get_default_ne by (intros [=]));
  repeat (rewrite config_default_lookup;
          first [ rewrite decide_True by reflexivity
                | rewrite decide_False by (intros [=]) ]);
  repeat (rewrite config_get_default_ne by (intros [=])).

(** What [init_app] leaves under each key. *)
Lemma init_config_lookup (cfg : gmap string pyval) (k : string) :
  init_config cfg !! k =
  match dict_get recognized_options k with
  | Some fallback => Some (py_or (config_get cfg k) fallback)
  | None => cfg !! k
  end.
Proof.
  unfold init_config, recognized_options.
  cbn [dict_get].
  repeat (case_decide; [ subst k; config_keys; reflexivity | ]).
  repeat (rewrite config_default_lookup, decide_False by done).
  reflexivity.
Qed.

Lemma recognized_dict_get (key : string) (fallback : pyval) :
  (key, fallback) ∈ recognized_options ->
  dict_get recognized_options key = Some fallback.
Proof.
  intros Hin. apply dict_get_nodup; [|done].
  apply (bool_decide_unpack _). by vm_compute.
Qed.

Lemma init_config_get (cfg : gmap string pyval) (key : string)
    (fallback : pyval) :
  (key, fallback) ∈ recognized_options ->
  config_get (init_config cfg) key = py_or (config_get cfg key) fallback.
Proof.
  intros Hin. unfold config_get at 1.
  by rewrite init_config_lookup, (recognized_dict_get key fallback Hin).
Qed.

(** A falsy value and an absent key give [init_app] the same to work on. *)
Lemma init_config_delete_falsy (cfg : gmap string pyval) (key : string)
    (fallback : pyval) :
  (key, fallback) ∈ recognized_options ->
  truthy (config_get cfg key) = false ->
  init_config (delete key cfg) = init_config cfg.
Proof.
  intros Hin Hfalsy. apply map_eq. intros k.
  rewrite !init_config_lookup.
  destruct (decide (key = k)) as [<-|Hne].
  - rewrite (recognized_dict_get key fallback Hin).
    unfold py_or. rewrite Hfalsy. unfold config_get.
    by rewrite lookup_delete_eq.
  - unfold config_get. by rewrite lookup_delete_ne.
Qed.

(** ** Pool defaults and driver adjustments *)

Lemma _setdefault_lookup (cfg : gmap string pyval) (optionkey configkey : string)
    (options : gmap string optval) (k : string) :
  _setdefault cfg optionkey configkey options !! k =
  if decide (optionkey = k)
  then match configured cfg configkey with
       | Some v => Some v
       | None => options !! k
       end
  else options !! k.
Proof.
  unfold _setdefault, configured.
  destruct (decide (config_get cfg configkey = VNone)).
  - by destruct (decide (optionkey = k)).
  - apply lookup_insert.
Qed.

Lemma pool_defaults_pool_size (cfg : gmap string pyval) :
  apply_pool_defaults cfg ∅ !! "pool_size" = configured cfg "SQLALCHEMY_POOL_SIZE".
Proof.
  unfold apply_pool_defaults. rewrite !_setdefault_lookup. simpl.
  rewrite lookup_empty. by destruct (configured cfg "SQLALCHEMY_POOL_SIZE").
Qed.


Lemma pool_defaults_only (cfg : gmap string pyval) (k : string) :
  k <> "pool_size" -> k <> "pool_timeout" -> k <> "pool_recycle" ->
  k <> "max_overflow" ->
  apply_pool_defaults cfg ∅ !! k = None.
Proof.
  intros H1 H2 H3 H4. unfold apply_pool_defaults.
  rewrite !_setdefault_lookup.
  rewrite !decide_False by done. apply lookup_empty.
Qed.

Lemma options_setdefault_lookup (key : string) (v : optval)
    (options : gmap string optval) (k : string) :
  options_setdefault key v options !! k =
  if decide (key = k) then Some (default v (options !! k)) else options !! k.
Proof.
  unfold options_setdefault.
  destruct (options !! key) as [old|] eqn:Hold.
  - destruct (decide (key = k)) as [<-|]; [by rewrite Hold|done].
  - rewrite lookup_insert.
    destruct (decide (key = k)) as [<-|]; [by rewrite Hold|done].
Qed.

Lemma dict_get_set_eq {K V} `{EqDecision K} (d : list (K * V)) k v :
  dict_get (dict_set d k v) k = Some v.
Proof.
  induction d as [|[k' v'] d IH]; simpl.
  - by rewrite decide_True.
  - destruct (decide (k' = k)) as [->|Hne]; simpl.
    + by rewrite decide_True.
    + by rewrite decide_False.
Qed.

Lemma dict_get_set_ne {K V} `{EqDecision K} (d : list (K * V)) k k0 v :
  k <> k0 -> dict_get (dict_set d k v) k0 = dict_get d k0.
Proof.
  intros Hne. induction d as [|[k' v'] d IH]; simpl.
  - by rewrite decide_False.
  - destruct (decide (k' = k)) as [->|Hne']; simpl.
    + by rewrite !decide_False.
    + destruct (decide (k' = k0)); [done|apply IH].
Qed.

Lemma dict_get_setdefault {K V} `{EqDecision K} (d : list (K * V)) k v :
  dict_get (dict_setdefault d k v) k = Some (default v (dict_get d k)).
Proof.
  unfold dict_setdefault.
  destruct (dict_get d k) as [old|] eqn:Hold; simpl; [done|].
  apply dict_get_set_eq.
Qed.

Lemma native_unicode_step_ok (unicode : pyval) (cfg : gmap string pyval)
    (info : URL) (options : gmap string optval) :
  is_Some (cfg !! "SQLALCHEMY_NATIVE_UNICODE") ->
  exists options',
    native_unicode_step unicode cfg info options = Ok (info, options') /\
    forall k, k <> "use_native_unicode" -> options' !! k = options !! k.
Proof.
  intros [unu Hunu]. unfold native_unicode_step, config_item. rewrite Hunu.
  destruct (negb _).
  - eexists. split; [done|]. intros k Hk. by rewrite lookup_insert_ne.
  - by eexists.
Qed.

Lemma native_unicode_step_inv (unicode : pyval) (cfg : gmap string pyval)
    (info info' : URL) (options options' : gmap string optval) :
  native_unicode_step unicode cfg info options = Ok (info', options') ->
  info' = info /\
  forall k, k <> "use_native_unicode" -> options' !! k = options !! k.
Proof.
  unfold native_unicode_step.
  destruct (config_item cfg _) as [unu|]; [|done].
  destruct (negb _); intros [= <- <-]; split; try done.
  intros k Hk. by rewrite lookup_insert_ne.
Qed.


(** The adjustments for the [sqlite] driver on an in-memory database. *)
Lemma apply_driver_hacks_in_memory (unicode : pyval) (cfg : gmap string pyval)
    (info : URL) (options : gmap string optval) :
  drivername info = "sqlite" ->
  in_memory_database (database info) = true ->
  apply_driver_hacks unicode cfg info options =
  if opt_is_zero (options !! "pool_size")
  then Raise (RuntimeError in_memory_message)
  else native_unicode_step unicode cfg info
         (alter set_check_same_thread "connect_args"
            (match options !! "connect_args" with
             | None => <["connect_args" := OArgs []]>
                         (<["poolclass" := OPool StaticPool]> options)
             | Some _ => <["poolclass" := OPool StaticPool]> options
             end)).
Proof.
  intros Hsqlite Hmemory. unfold apply_driver_hacks, native_unicode_step.
  rewrite Hsqlite, Hmemory. cbn [String.prefix String.eqb Ascii.eqb].
  simpl. rewrite lookup_insert_ne by done.
  by destruct (opt_is_zero (options !! "pool_size")).
Qed.

(** ** Engine Connector: constructing and caching *)

Lemma with_echo_lookup (echo : pyval) (options : gmap string optval) k :
  k <> "echo" -> with_echo echo options !! k = options !! k.
Proof.
  intros Hk. unfold with_echo. destruct (truthy echo); [|done].
  by rewrite lookup_insert_ne.
Qed.

Section ConnectorFacts.
Context `{Library}.
Implicit Types (cfg : gmap string pyval) (self : connector).

(** When the recorded pair is not the current one and every step of the
    construction succeeds, [get_engine] returns a new object and records
    it together with the current pair. *)
Lemma get_engine_constructs unicode cfg self next uri info info' options :
  EngineConnector.get_uri cfg self = Ok uri ->
  same_connection uri (config_get cfg "SQLALCHEMY_ECHO") (_connected_for self)
    = false ->
  make_url uri = Ok info ->
  apply_driver_hacks unicode cfg info (apply_pool_defaults cfg ∅)
    = Ok (info', options) ->
  create_engine_error info'
    (with_echo (config_get cfg "SQLALCHEMY_ECHO") options) = None ->
  let rv := {| eid := next; e_url := info';
               e_options := with_echo (config_get cfg "SQLALCHEMY_ECHO")
                                      options |} in
  EngineConnector.get_engine unicode cfg self next =
  (Ok (Some rv),
   connected self rv uri (config_get cfg "SQLALCHEMY_ECHO"), S next).
Proof.
  intros Huri Hchanged Hurl Hhacks Hcreate rv.
  unfold EngineConnector.get_engine.
  rewrite Huri, Hchanged, Hurl, Hhacks.
  unfold create_engine. fold (with_echo (config_get cfg "SQLALCHEMY_ECHO") options).
  by rewrite Hcreate.
Qed.

(** When the recorded pair is the current one, [get_engine] returns the
    recorded object and changes nothing. *)
Lemma get_engine_cached unicode cfg self next uri :
  EngineConnector.get_uri cfg self = Ok uri ->
  same_connection uri (config_get cfg "SQLALCHEMY_ECHO") (_connected_for self)
    = true ->
  EngineConnector.get_engine unicode cfg self next
  = (Ok (_engine self), self, next).
Proof.
  intros Huri Hsame. unfold EngineConnector.get_engine.
  by rewrite Huri, Hsame.
Qed.

(** Every way [get_engine] can end. *)
Lemma get_engine_cases unicode cfg self next :
  let echo := config_get cfg "SQLALCHEMY_ECHO" in
  (exists e, EngineConnector.get_engine unicode cfg self next
             = (Raise e, self, next)) \/
  (exists uri,
      EngineConnector.get_uri cfg self = Ok uri /\
      same_connection uri echo (_connected_for self) = true /\
      EngineConnector.get_engine unicode cfg self next
      = (Ok (_engine self), self, next)) \/
  (exists uri info info' options,
      EngineConnector.get_uri cfg self = Ok uri /\
      same_connection uri echo (_connected_for self) = false /\
      make_url uri = Ok info /\
      apply_driver_hacks unicode cfg info (apply_pool_defaults cfg ∅)
        = Ok (info', options) /\
      let rv := {| eid := next; e_url := info';
                   e_options := with_echo echo options |} in
      EngineConnector.get_engine unicode cfg self next
      = (Ok (Some rv), connected self rv uri echo, S next)).
Proof.
  intros echo. unfold EngineConnector.get_engine.
  destruct (EngineConnector.get_uri cfg self) as [uri|e]; [|left; eauto].
  fold echo.
  destruct (same_connection uri echo (_connected_for self)) eqn:Hsame.
  { right; left. by exists uri. }
  destruct (make_url uri) as [info|e] eqn:Hurl; [|left; eauto].
  destruct (apply_driver_hacks _ _ _ _) as [[info' options]|e] eqn:Hhacks;
    [|left; eauto].
  unfold create_engine. fold (with_echo echo options).
  destruct (create_engine_error _ _); [left; eauto|].
  right; right. by exists uri, info, info', options.
Qed.

End ConnectorFacts.

Lemma same_connection_refl (uri echo : pyval) :
  same_connection uri echo (Some (uri, echo)) = true.
Proof. unfold same_connection. by rewrite !py_eq_refl. Qed.

(** C1: let a call of the connector's [get_engine] return the pool handle
    [rv], in a state where the identities in use lie below the next one.
    The connector then holds [rv] and a recorded pair.  (1) A following
    call under which [get_uri] and the echo flag give what they gave
    returns [rv] itself and constructs nothing.  (2) A following call under
    which the URI or the echo flag differs ([!=]) from the recorded pair,
    and whose construction steps succeed, returns a newly constructed
    handle, whose identity is not that of [rv], and the connector holds it
    together with the new pair. *)
Theorem connector_cache `{Library} (unicode : pyval) (cfg : gmap string pyval)
    (self self1 : connector) (next next1 : nat) (rv : engine) :
  EngineConnector.get_engine unicode cfg self next = (Ok (Some rv), self1, next1) ->
  (forall e, _engine self = Some e -> (eid e < next)%nat) ->
  exists uri0 echo0,
    _connected_for self1 = Some (uri0, echo0) /\
    _engine self1 = Some rv /\
    (forall unicode' cfg',
        EngineConnector.get_uri cfg' self1 = EngineConnector.get_uri cfg self ->
        config_get cfg' "SQLALCHEMY_ECHO" = config_get cfg "SQLALCHEMY_ECHO" ->
        EngineConnector.get_engine unicode' cfg' self1 next1
        = (Ok (Some rv), self1, next1)) /\
    (forall unicode' cfg' uri info info' options,
        let echo := config_get cfg' "SQLALCHEMY_ECHO" in
        EngineConnector.get_uri cfg' self1 = Ok uri ->
        py_eq uri uri0 = false \/ py_eq echo echo0 = false ->
        make_url uri = Ok info ->
        apply_driver_hacks unicode' cfg' info (apply_pool_defaults cfg' ∅)
          = Ok (info', options) ->
        create_engine_error info' (with_echo echo options) = None ->
        exists rv',
          EngineConnector.get_engine unicode' cfg' self1 next1
          = (Ok (Some rv'), connected self1 rv' uri echo, S next1) /\
          eid rv' = next1 /\ eid rv' <> eid rv /\
          e_url rv' = info' /\ e_options rv' = with_echo echo options).
Proof.
  intros Hcall Hids.
  assert (Hstate : exists uri0 echo0 uri,
             _connected_for self1 = Some (uri0, echo0) /\
             _engine self1 = Some rv /\ (eid rv < next1)%nat /\
             EngineConnector.get_uri cfg self = Ok uri /\
             same_connection uri (config_get cfg "SQLALCHEMY_ECHO")
                             (_connected_for self1) = true /\
             _bind self1 = _bind self).
  { destruct (get_engine_cases unicode cfg self next)
      as [[e He]|[(uri & Huri & Hsame & He)
                 |(uri & info & info' & options & Huri & _ & _ & _ & He)]];
      rewrite He in Hcall.
    - done.
    - injection Hcall as Hrv Hself Hnext. subst self1 next1.
      destruct (_connected_for self) as [[uri0 echo0]|] eqn:Hcf; [|done].
      exists uri0, echo0, uri. eauto 10.
    - injection Hcall as Hrv Hself Hnext. subst rv self1 next1. simpl.
      eexists _, _, uri. repeat split; try done; [lia|].
      apply same_connection_refl. }
  destruct Hstate as (uri0 & echo0 & uri1 & Hcf & Heng & Hlt & Huri1 & Hsame
                      & Hbind).
  exists uri0, echo0. split; [done|]. split; [done|]. split.
  - intros unicode' cfg' Huri Hecho.
    rewrite <- Heng. apply get_engine_cached with (uri := uri1).
    + by rewrite Huri.
    + by rewrite Hecho.
  - intros unicode' cfg' uri info info' options echo Huri Hdiff Hurl Hhacks
           Hcreate.
    eexists. split; [|split; [|split; [|split]]].
    + apply get_engine_constructs with (info := info); try done.
      rewrite Hcf. unfold same_connection. fold echo.
      destruct Hdiff as [-> | ->]; [done|apply andb_false_r].
    + done.
    + simpl. lia.
    + done.
    + done.
Qed.

(** ** MySQL-family drivers *)



(** ** Normalization of falsy options *)

Lemma apply_driver_hacks_steps (unicode : pyval) (cfg : gmap string pyval)
    (info : URL) (options : gmap string optval) :
  apply_driver_hacks unicode cfg info options =
  match driver_step info options with
  | Raise e => Raise e
  | Ok (info, options) => native_unicode_step unicode cfg info options
  end.
Proof. reflexivity. Qed.

(** The driver adjustments leave [pool_size] as it is, or set it to 10
    where it was absent. *)
Lemma driver_step_pool_size (info info' : URL)
    (options options' : gmap string optval) :
  driver_step info options = Ok (info', options') ->
  options' !! "pool_size" = options !! "pool_size" \/
  (options !! "pool_size" = None /\
   options' !! "pool_size" = Some (OV (VInt 10))).
Proof.
  unfold driver_step.
  destruct (String.prefix "mysql" (drivername info)).
  - cbn [set_query drivername].
    destruct (negb _); intros [= <- <-]; [|by left].
    rewrite !options_setdefault_lookup.
    rewrite decide_False by done. rewrite decide_True by done.
    destruct (options !! "pool_size"); [by left|by right].
  - destruct (String.eqb (drivername info) "sqlite"); [|intros [= <- <-]; by left].
    destruct (in_memory_database (database info)).
    + destruct (opt_is_zero _); [done|]. intros [= <- <-]. left.
      rewrite lookup_alter_ne by done.
      rewrite lookup_insert_ne by done.
      destruct (options !! "connect_args");
        by rewrite ?lookup_insert_ne by done.
    + destruct (opt_not _); intros [= <- <-]; left; [|done].
      by rewrite lookup_insert_ne.
Qed.

Lemma apply_driver_hacks_pool_size (unicode : pyval) (cfg : gmap string pyval)
    (info info' : URL) (options options' : gmap string optval) :
  apply_driver_hacks unicode cfg info options = Ok (info', options') ->
  options' !! "pool_size" = options !! "pool_size" \/
  (options !! "pool_size" = None /\
   options' !! "pool_size" = Some (OV (VInt 10))).
Proof.
  rewrite apply_driver_hacks_steps.
  destruct (driver_step info options) as [[info1 options1]|] eqn:Hstep; [|done].
  intros [_ Hkeep]%native_unicode_step_inv.
  rewrite Hkeep by done. by eapply driver_step_pool_size.
Qed.

(** ** The extension object: engines through the connector cache *)

Section ExtensionFacts.
Context `{Library}.
Variable self : SQLAlchemy.

Lemma get_app_available (app : option application) (w : world) :
  app_available app w -> get_app app w = (Ok App, w).
Proof.
  intros [[a ->]|Hself]; unfold get_app.
  - by destruct a.
  - destruct app as [[]|]; [done|]. by rewrite Hself.
Qed.

(** [SQLAlchemy.get_engine] is the connector's [get_engine] on the cached
    connector, or on a new one, which is then in the cache. *)
Lemma get_engine_world (app : option application) (b : bind_id) (w : world)
    (connectors : gmap bind_id connector) :
  app_available app w ->
  extensions w = Some connectors ->
  get_engine self app b w =
  let c := default (new_connector b) (connectors !! b) in
  let r := EngineConnector.get_engine (use_native_unicode self) (config w) c
             (next_id w) in
  (fst (fst r), store_connector w connectors b (snd (fst r)) (snd r)).
Proof.
  intros Happ Hext. unfold get_engine, bind.
  rewrite (get_app_available app w Happ).
  unfold get_state. rewrite Hext.
  destruct (connectors !! b) as [c|]; simpl.
  - by destruct (EngineConnector.get_engine _ _ c _) as [[rv c'] n'].
  - by destruct (EngineConnector.get_engine _ _ _ _) as [[rv c'] n'].
Qed.

End ExtensionFacts.

Lemma init_app_world (w0 : world) :
  config (snd (init_app App w0)) = init_config (config w0) /\
  extensions (snd (init_app App w0)) = Some ∅ /\
  self_app (snd (init_app App w0)) = true /\
  next_id (snd (init_app App w0)) = next_id w0.
Proof. done. Qed.

(** C10: let a recognized option hold a falsy value (0, the empty string,
    [False], an empty mapping, or [None]) when [init_app] runs.  Afterwards
    the configuration holds the option's default under that key, and it is
    the configuration [init_app] produces when the key is absent.  For the
    pool size in particular, [apply_pool_defaults] passes no [pool_size],
    and any engine then obtained from the extension was constructed with no
    [pool_size] keyword or with the MySQL default of 10. *)
Theorem init_app_normalizes_falsy `{Library} (self : SQLAlchemy) (w0 : world)
    (key : string) (fallback : pyval) :
  (key, fallback) ∈ recognized_options ->
  truthy (config_get (config w0) key) = false ->
  let w := snd (init_app App w0) in
  config w !! key = Some fallback /\
  config w
    = config (snd (init_app App (set_config (delete key (config w0)) w0))) /\
  (key = "SQLALCHEMY_POOL_SIZE" ->
   config_get (config w) "SQLALCHEMY_POOL_SIZE" = VNone /\
   apply_pool_defaults (config w) ∅ !! "pool_size" = None /\
   forall app bind rv w',
     get_engine self app bind w = (Ok (Some rv), w') ->
     e_options rv !! "pool_size" = None \/
     e_options rv !! "pool_size" = Some (OV (VInt 10))).
Proof.
  intros Hkey Hfalsy w.
  assert (Hget : config_get (config w) key = fallback).
  { subst w. cbn [init_app snd config].
    rewrite (init_config_get _ key fallback Hkey).
    unfold py_or. by rewrite Hfalsy. }
  split; [|split].
  - subst w. cbn [init_app snd config].
    rewrite init_config_lookup, (recognized_dict_get key fallback Hkey).
    unfold py_or. by rewrite Hfalsy.
  - subst w. cbn [init_app snd config set_config].
    symmetry. by eapply init_config_delete_falsy.
  - intros ->.
    assert (fallback = VNone) as ->.
    { apply recognized_dict_get in Hkey. by vm_compute in Hkey; injection Hkey. }
    assert (Hnone : apply_pool_defaults (config w) ∅ !! "pool_size" = None).
    { rewrite pool_defaults_pool_size. unfold configured.
      by rewrite Hget, decide_True. }
    split; [done|]. split; [done|].
    intros app bind rv w' Hcall.
    rewrite (get_engine_world self app bind w ∅) in Hcall;
      [|by right|done].
    rewrite lookup_empty in Hcall. cbn [default] in Hcall.
    destruct (get_engine_cases (use_native_unicode self) (config w)
                (new_connector bind) (next_id w))
      as [[e He]|[(uri & _ & Hsame & _)
                 |(uri & info & info' & options & _ & _ & _ & Hhacks & He)]].
    + rewrite He in Hcall. by injection Hcall.
    + done.
    + rewrite He in Hcall. injection Hcall as <- _.
      cbn [e_options]. rewrite with_echo_lookup by done.
      destruct (apply_driver_hacks_pool_size _ _ _ _ _ _ Hhacks)
        as [Hsame|[_ Hten]].
      * left. by rewrite Hsame.
      * by right.
Qed.

Lemma init_app_normalizes_falsy_witness :
  config (initialized zero_pool_config) !! "SQLALCHEMY_POOL_SIZE" = Some VNone /\
  config (initialized zero_pool_config)
  = config (initialized (delete "SQLALCHEMY_POOL_SIZE" zero_pool_config)) /\
  apply_pool_defaults (config (initialized zero_pool_config)) ∅ !! "pool_size"
  = None.
Proof.
  destruct (@init_app_normalizes_falsy plain_library sample_db
              (fresh_world zero_pool_config) "SQLALCHEMY_POOL_SIZE" VNone)
    as (Hdefault & Hunset & Hpool).
  - apply (bool_decide_unpack _). by vm_compute.
  - reflexivity.
  - split; [exact Hdefault|]. split; [exact Hunset|].
    exact (proj1 (proj2 (Hpool eq_refl))).
Defined.

(** ** In-memory SQLite *)

Lemma init_config_native_unicode (cfg : gmap string pyval) :
  is_Some (init_config cfg !! "SQLALCHEMY_NATIVE_UNICODE").
Proof. rewrite init_config_lookup. by eexists. Qed.

(** The keywords an in-memory SQLite database gets from options that hold
    no [connect_args] and no zero pool size. *)
Lemma in_memory_options (unicode : pyval) (cfg : gmap string pyval)
    (info : URL) (options : gmap string optval) :
  drivername info = "sqlite" ->
  in_memory_database (database info) = true ->
  is_Some (cfg !! "SQLALCHEMY_NATIVE_UNICODE") ->
  opt_is_zero (options !! "pool_size") = false ->
  options !! "connect_args" = None ->
  exists options',
    apply_driver_hacks unicode cfg info options = Ok (info, options') /\
    options' !! "poolclass" = Some (OPool StaticPool) /\
    options' !! "connect_args"
    = Some (OArgs [("check_same_thread", VBool false)]) /\
    options' !! "pool_size" = options !! "pool_size".
Proof.
  intros Hsqlite Hmemory Hunicode Hzero Hargs.
  rewrite (apply_driver_hacks_in_memory unicode cfg info options Hsqlite Hmemory).
  rewrite Hzero, Hargs.
  destruct (native_unicode_step_ok unicode cfg info
              (alter set_check_same_thread "connect_args"
                 (<["connect_args" := OArgs []]>
                    (<["poolclass" := OPool StaticPool]> options)))
              Hunicode) as (options' & Hstep & Hkeep).
  exists options'. split; [done|].
  rewrite !Hkeep by done. split; [|split].
  - rewrite lookup_alter_ne by done.
    rewrite lookup_insert_ne by done. apply lookup_insert_eq.
  - rewrite lookup_alter_eq. by rewrite lookup_insert_eq.
  - rewrite lookup_alter_ne by done. by rewrite !lookup_insert_ne.
Qed.

Lemma connector_cache_witness :
  let cfg := init_config reporting_config in
  let louder := <["SQLALCHEMY_ECHO" := VBool true]> cfg in
  let first :=
    @EngineConnector.get_engine plain_library (VBool true) cfg
      (new_connector None) 0%nat in
  exists rv rv',
    fst (fst first) = Ok (Some rv) /\
    @EngineConnector.get_engine plain_library (VBool true) cfg
      (snd (fst first)) (snd first)
    = (Ok (Some rv), snd (fst first), snd first) /\
    fst (fst (@EngineConnector.get_engine plain_library (VBool true) louder
                (snd (fst first)) (snd first)))
    = Ok (Some rv') /\
    eid rv = 0%nat /\ eid rv' = 1%nat.
Proof.
  intros cfg louder first.
  set (info := {| drivername := "sqlite"; database := Some ":memory:";
                  query := [] |}).
  assert (Hzero : opt_is_zero (apply_pool_defaults cfg ∅ !! "pool_size")
                  = false) by (vm_compute; reflexivity).
  assert (Hzero' : opt_is_zero (apply_pool_defaults louder ∅ !! "pool_size")
                   = false) by (vm_compute; reflexivity).
  destruct (in_memory_options (VBool true) cfg info
              (apply_pool_defaults cfg ∅) eq_refl eq_refl
              (init_config_native_unicode reporting_config) Hzero
              (pool_defaults_only cfg "connect_args" ltac:(done) ltac:(done)
                 ltac:(done) ltac:(done)))
    as (options & Hhacks & _).
  assert (Hlouder : is_Some (louder !! "SQLALCHEMY_NATIVE_UNICODE")).
  { subst louder. rewrite lookup_insert_ne by done.
    apply init_config_native_unicode. }
  destruct (in_memory_options (VBool true) louder info
              (apply_pool_defaults louder ∅) eq_refl eq_refl Hlouder Hzero'
              (pool_defaults_only louder "connect_args" ltac:(done)
                 ltac:(done) ltac:(done) ltac:(done)))
    as (options' & Hhacks' & _).
  pose proof (@get_engine_constructs plain_library (VBool true) cfg
                (new_connector None) 0%nat (VStr "sqlite:///:memory:")
                info info options eq_refl eq_refl eq_refl Hhacks eq_refl)
    as Hcall.
  cbv zeta in Hcall. fold first in Hcall.
  destruct (@connector_cache plain_library (VBool true) cfg
              (new_connector None) _ 0%nat _ _ Hcall ltac:(intros e [=]))
    as (uri0 & echo0 & Hcf & Heng & Hsame & Hdiff).
  cbn [connected _connected_for] in Hcf. injection Hcf as <- <-.
  destruct (Hdiff (VBool true) louder (VStr "sqlite:///:memory:") info info
              options' eq_refl (or_intror eq_refl) eq_refl Hhacks' eq_refl)
    as (rv' & Hcall' & Hid & _).
  eexists _, rv'. rewrite Hcall. cbn [fst snd].
  split; [reflexivity|]. split; [apply Hsame; reflexivity|].
  split; [rewrite Hcall'; reflexivity|]. split; [reflexivity|exact Hid].
Defined.

(** C4, on the failing input: with the pool size configured as 0 and the
    primary URI an in-memory SQLite database, the engine requested after
    [init_app] is constructed, with the static pool and without any
    [pool_size]: the error for a zero-size pool is not raised. *)
Theorem in_memory_zero_pool_accepted `{Library} (self : SQLAlchemy)
    (w0 : world) (app : option application) (info : URL) :
  config_get (config w0) "SQLALCHEMY_POOL_SIZE" = VInt 0 ->
  make_url (config_get (init_config (config w0)) "SQLALCHEMY_DATABASE_URI")
    = Ok info ->
  drivername info = "sqlite" ->
  in_memory_database (database info) = true ->
  (forall i o, create_engine_error i o = None) ->
  exists rv w',
    get_engine self app None (snd (init_app App w0)) = (Ok (Some rv), w') /\
    e_options rv !! "poolclass" = Some (OPool StaticPool) /\
    e_options rv !! "connect_args"
    = Some (OArgs [("check_same_thread", VBool false)]) /\
    e_options rv !! "pool_size" = None.
Proof.
  intros Hzero Hurl Hsqlite Hmemory Hcreate.
  set (w := snd (init_app App w0)).
  assert (Hcfg : config w = init_config (config w0)) by done.
  assert (Hpool : apply_pool_defaults (config w) ∅ !! "pool_size" = None).
  { rewrite pool_defaults_pool_size. unfold configured.
    rewrite Hcfg.
    rewrite (init_config_get _ "SQLALCHEMY_POOL_SIZE" VNone)
      by (apply (bool_decide_unpack _); by vm_compute).
    unfold py_or. by rewrite Hzero. }
  destruct (in_memory_options (use_native_unicode self) (config w) info
              (apply_pool_defaults (config w) ∅) Hsqlite Hmemory)
    as (options & Hhacks & Hclass & Hargs & Hsize).
  { rewrite Hcfg. apply init_config_native_unicode. }
  { by rewrite Hpool. }
  { by apply pool_defaults_only. }
  rewrite (get_engine_world self app None w ∅); [|by right|done].
  rewrite lookup_empty. cbn [default].
  rewrite (get_engine_constructs (use_native_unicode self) (config w)
             (new_connector None) (next_id w)
             (config_get (config w) "SQLALCHEMY_DATABASE_URI")
             info info options); try done.
  eexists _, _. split; [reflexivity|].
  cbn [e_options]. rewrite !with_echo_lookup by done.
  by rewrite Hsize, Hpool.
Qed.

Lemma in_memory_zero_pool_accepted_witness :
  exists rv,
    fst (@get_engine plain_library sample_db None None
           (initialized zero_pool_config)) = Ok (Some rv) /\
    e_options rv !! "poolclass" = Some (OPool StaticPool) /\
    e_options rv !! "pool_size" = None.
Proof.
  destruct (@in_memory_zero_pool_accepted plain_library sample_db
              (fresh_world zero_pool_config) None
              {| drivername := "sqlite"; database := Some ":memory:";
                 query := [] |}
              eq_refl eq_refl eq_refl eq_refl (fun _ _ => eq_refl))
    as (rv & w' & Hcall & Hclass & _ & Hsize).
  exists rv. unfold initialized. rewrite Hcall.
  split; [reflexivity|]. split; [exact Hclass|exact Hsize].
Defined.

(** Handed a pool size of 0 directly, the driver adjustments do raise. *)
Lemma in_memory_zero_pool_raises (unicode : pyval) (cfg : gmap string pyval)
    (info : URL) (options : gmap string optval) :
  drivername info = "sqlite" ->
  in_memory_database (database info) = true ->
  options !! "pool_size" = Some (OV (VInt 0)) ->
  apply_driver_hacks unicode cfg info options
  = Raise (RuntimeError in_memory_message).
Proof.
  intros Hsqlite Hmemory Hzero.
  rewrite (apply_driver_hacks_in_memory unicode cfg info options Hsqlite Hmemory).
  by rewrite Hzero.
Qed.

(** ** The connector cache across calls *)

Lemma get_uri_bind (cfg : gmap string pyval) (c : connector) :
  EngineConnector.get_uri cfg c
  = EngineConnector.get_uri cfg (new_connector (_bind c)).
Proof. reflexivity. Qed.

Lemma store_connector_id (w : world) (connectors : gmap bind_id connector)
    (b : bind_id) (c : connector) :
  extensions w = Some connectors -> connectors !! b = Some c ->
  store_connector w connectors b c (next_id w) = w.
Proof.
  intros Hext Hc. destruct w as [cfg ext sa n wa ca]. simpl in *. subst ext.
  unfold store_connector. simpl. by rewrite insert_id.
Qed.

Lemma world_wf_init (w0 : world) : world_wf (snd (init_app App w0)).
Proof.
  intros connectors b c [= <-]. by rewrite lookup_empty.
Qed.

Section CacheFacts.
Context `{Library}.
Variable self : SQLAlchemy.

(** An engine the cache holds is what [get_engine] returns, and asking for
    it changes nothing. *)
Lemma holds_get_engine (w : world) (b : bind_id) (rv : engine)
    (app : option application) :
  app_available app w -> holds w b rv ->
  get_engine self app b w = (Ok (Some rv), w).
Proof.
  intros Happ (connectors & c & uri & Hext & Hc & Heng & Huri & Hsame).
  rewrite (get_engine_world self app b w connectors Happ Hext).
  rewrite Hc. cbn [default].
  rewrite (get_engine_cached _ _ c (next_id w) uri Huri Hsame).
  cbn [fst snd]. by rewrite Heng, (store_connector_id w connectors b c).
Qed.

Lemma holds_unique (w : world) (b : bind_id) (rv rv' : engine) :
  holds w b rv -> holds w b rv' -> rv = rv'.
Proof.
  intros (cs & c & uri & Hext & Hc & Heng & _)
         (cs' & c' & uri' & Hext' & Hc' & Heng' & _).
  congruence.
Qed.

(** One call of [get_engine] for a constructible bind. *)
Lemma get_engine_step (w : world) (b : bind_id) (app : option application)
    (connectors : gmap bind_id connector) :
  app_available app w ->
  extensions w = Some connectors ->
  world_wf w ->
  constructible (use_native_unicode self) (config w) b ->
  exists rv w',
    get_engine self app b w = (Ok (Some rv), w') /\
    config w' = config w /\ self_app w' = self_app w /\
    calls w' = calls w /\ warned w' = warned w /\
    (next_id w <= next_id w')%nat /\
    (exists connectors', extensions w' = Some connectors') /\
    world_wf w' /\ holds w' b rv /\
    (forall b0 rv0, holds w b0 rv0 -> holds w' b0 rv0).
Proof.
  intros Happ Hext Hwf (uri & info & info' & options & Huri & Hurl & Hhacks
                        & Hcreate).
  rewrite (get_engine_world self app b w connectors Happ Hext).
  remember (default (new_connector b) (connectors !! b)) as c eqn:Hc.
  cbv zeta.
  assert (Hbind : _bind c = b).
  { subst c. destruct (connectors !! b) as [c0|] eqn:Hc0; [|done].
    by apply (Hwf connectors b c0 Hext Hc0). }
  assert (Huri' : EngineConnector.get_uri (config w) c = Ok uri).
  { by rewrite get_uri_bind, Hbind. }
  set (echo := config_get (config w) "SQLALCHEMY_ECHO") in *.
  destruct (same_connection uri echo (_connected_for c)) eqn:Hsame.
  - (* the recorded pair is the current one *)
    assert (Hc0 : connectors !! b = Some c).
    { destruct (connectors !! b) as [c0|]; subst c; [done|]. done. }
    assert (is_Some (_engine c)) as [rv Hrv].
    { apply (Hwf connectors b c Hext Hc0).
      destruct (_connected_for c); [by eexists|done]. }
    rewrite (get_engine_cached _ _ c (next_id w) uri Huri' Hsame).
    cbn [fst snd]. rewrite Hrv.
    rewrite (store_connector_id w connectors b c Hext Hc0).
    exists rv, w. split; [done|]. do 4 (split; [done|]).
    split; [lia|]. split; [by exists connectors|]. split; [done|].
    split; [|done]. by exists connectors, c, uri.
  - (* the engine is constructed *)
    rewrite (get_engine_constructs _ _ c (next_id w) uri info info' options
               Huri' Hsame Hurl Hhacks Hcreate).
    cbn [fst snd].
    set (rv := {| eid := next_id w; e_url := info';
                  e_options := with_echo echo options |}).
    eexists rv, _. split; [reflexivity|].
    cbn [store_connector config self_app calls warned next_id extensions].
    do 4 (split; [done|]). split; [lia|]. split; [by eexists|].
    split; [|split].
    + intros connectors' b0 c0 [= <-]. rewrite lookup_insert.
      case_decide as Hb0.
      * intros [= <-]. cbn. split; [congruence|by eexists].
      * intros Hc0. by apply (Hwf connectors b0 c0 Hext Hc0).
    + eexists _, (connected c rv uri echo), uri.
      split; [reflexivity|]. rewrite lookup_insert_eq.
      do 3 (split; [done|]). apply same_connection_refl.
    + intros b0 rv0 (cs & c0 & uri0 & Hext0 & Hc0 & Heng0 & Huri0 & Hsame0).
      rewrite Hext in Hext0. injection Hext0 as <-.
      destruct (decide (b = b0)) as [<-|Hne].
      * exfalso. rewrite Hc0 in Hc. cbn in Hc. subst c0.
        rewrite Huri' in Huri0. injection Huri0 as <-.
        fold echo in Hsame0. congruence.
      * eexists _, c0, uri0. split; [reflexivity|].
        rewrite lookup_insert_ne by done. done.
Qed.

End CacheFacts.

(** ** Schema operations *)

Lemma configured_binds_secondary (cfg : gmap string pyval)
    (d : list (string * string)) :
  secondary_binds cfg d -> configured_binds cfg = Ok (map Some (dict_keys d)).
Proof.
  unfold configured_binds. intros [Hd|[Hfalsy ->]].
  - rewrite Hd. by destruct d.
  - by rewrite Hfalsy.
Qed.

Section SchemaFacts.
Context `{Library}.
Variable self : SQLAlchemy.

Lemma holds_record_call (w : world) (c : schema_call) (b : bind_id)
    (rv : engine) :
  holds w b rv -> holds (snd (record_call c w)) b rv.
Proof. done. Qed.

Lemma execute_loop_calls (operation : schema_op) (skip_tables : bool)
    (binds : list bind_id) :
  forall (w : world) (connectors : gmap bind_id connector),
    extensions w = Some connectors ->
    world_wf w ->
    (forall b, b ∈ binds ->
               constructible (use_native_unicode self) (config w) b) ->
    exists engines w',
      execute_loop self App binds operation skip_tables w = (Ok tt, w') /\
      config w' = config w /\ self_app w' = self_app w /\
      Forall2 (holds w') binds engines /\
      calls w' = calls w ++
        zip_with (fun b rv =>
                    {| call_op := operation; call_bind := Some rv;
                       call_tables := if skip_tables then None
                                      else Some (get_tables_for_bind self b) |})
                 binds engines /\
      (forall b0 rv0, holds w b0 rv0 -> holds w' b0 rv0).
Proof.
  induction binds as [|b binds IH]; intros w connectors Hext Hwf Hcan.
  - exists [], w. cbn. rewrite app_nil_r. by repeat (split; [done|]).
  - destruct (get_engine_step self w b (Some App) connectors)
      as (rv & w1 & Hcall & Hcfg1 & Hself1 & Hcalls1 & _ & _
          & [connectors1 Hext1] & Hwf1 & Hholds1 & Hkeep1);
      [by left|done|done|apply Hcan; by left|].
    set (c := {| call_op := operation; call_bind := Some rv;
                 call_tables := if skip_tables then None
                                else Some (get_tables_for_bind self b) |}).
    destruct (IH (snd (record_call c w1)) connectors1)
      as (engines & w' & Hloop & Hcfg & Hself & Hall & Hcalls & Hkeep);
      [done|done| |].
    { intros b0 Hb0. cbn. rewrite Hcfg1. apply Hcan. by right. }
    exists (rv :: engines), w'. split.
    { cbn [execute_loop]. unfold bind at 1. rewrite Hcall.
      unfold bind at 1. cbn. exact Hloop. }
    split; [by rewrite Hcfg|]. split; [by rewrite Hself|].
    split; [|split].
    + constructor; [|done]. by apply Hkeep, holds_record_call.
    + rewrite Hcalls. cbn. rewrite Hcalls1. by rewrite <- app_assoc.
    + intros b0 rv0 Hb0. by apply Hkeep, holds_record_call, Hkeep1.
Qed.

End SchemaFacts.

(** C8: let [d] be the secondary-URI mapping and let the engine of every
    selected bind be constructible.  Then each of [create_all], [drop_all]
    and [reflect] returns, and the calls it makes on the metadata are, in
    order, one per selected bind: the primary and then every key of [d] for
    ['__all__'], the named bind for any other string, the primary for
    [None], the listed binds for a list.  Each call is made on the engine
    that [get_engine] resolves for that bind, with the tables owned by that
    bind, except that [reflect] passes no tables. *)
Theorem schema_operation_calls `{Library} (self : SQLAlchemy) (w : world)
    (app : option application) (op : schema_op) (sel : selector)
    (connectors : gmap bind_id connector) (d : list (string * string)) :
  let binds := match sel with
               | SelStr s => if String.eqb s "__all__"
                             then None :: map Some (dict_keys d)
                             else [Some s]
               | SelNone => [None]
               | SelList l => l
               end in
  app_available app w ->
  extensions w = Some connectors ->
  world_wf w ->
  secondary_binds (config w) d ->
  (forall b, b ∈ binds ->
             constructible (use_native_unicode self) (config w) b) ->
  exists engines w',
    schema_operation self op sel app w = (Ok tt, w') /\
    Forall2 (fun b rv => get_engine self app b w' = (Ok (Some rv), w'))
            binds engines /\
    calls w' = calls w ++ zip_with (expected_call self op) binds engines.
Proof.
  intros binds Happ Hext Hwf Hd Hcan.
  set (skip := match op with op_reflect => true | _ => false end).
  destruct (execute_loop_calls self op skip binds w connectors Hext Hwf Hcan)
    as (engines & w' & Hloop & Hcfg & Hself & Hall & Hcalls & _).
  assert (Hrun : _execute_for_all_tables self app sel op skip w = (Ok tt, w')).
  { unfold _execute_for_all_tables, bind.
    rewrite (get_app_available app w Happ).
    destruct sel as [s| |l]; cbn; try exact Hloop.
    subst binds. destruct (String.eqb s "__all__"); [|exact Hloop].
    cbn. rewrite (configured_binds_secondary (config w) d Hd). exact Hloop. }
  exists engines, w'. split; [|split].
  - by destruct op.
  - eapply Forall2_impl; [exact Hall|].
    intros b rv Hholds. apply holds_get_engine; [|done].
    destruct Happ as [?|Happ]; [by left|right; congruence].
  - rewrite Hcalls. f_equal. unfold expected_call. by destruct op.
Qed.

Lemma reporting_constructible (b : bind_id) :
  b ∈ [None; Some "reporting"; Some "archive"] ->
  @constructible plain_library (VBool true)
    (config (initialized reporting_config)) b.
Proof.
  rewrite !elem_of_cons, elem_of_nil.
  intros [->|[->|[->|[]]]]; unfold constructible;
    eexists _, _, _, _; (split; [reflexivity|]); (split; [reflexivity|]);
    (split; [reflexivity|]); reflexivity.
Defined.

Lemma schema_operation_calls_witness :
  exists engines w',
    @schema_operation plain_library sample_db op_create_all (SelStr "__all__")
      None (initialized reporting_config) = (Ok tt, w') /\
    calls w' = zip_with (expected_call sample_db op_create_all)
                 [None; Some "reporting"; Some "archive"] engines /\
    List.length engines = 3%nat.
Proof.
  destruct (@schema_operation_calls plain_library sample_db
              (initialized reporting_config) None op_create_all
              (SelStr "__all__") ∅
              [("reporting", "sqlite:////tmp/reporting.db");
               ("archive", "mysql://u@h/archive")]
              (or_intror eq_refl) eq_refl
              (world_wf_init (fresh_world reporting_config))
              (or_introl eq_refl) reporting_constructible)
    as (engines & w' & Hrun & Hall & Hcalls).
  exists engines, w'. split; [exact Hrun|]. split; [exact Hcalls|].
  symmetry. exact (Forall2_length _ _ _ Hall).
Defined.

(** ** The routing table of [get_binds] *)

Lemma dict_keys_set {K V} `{EqDecision K} (d : list (K * V)) k0 v k :
  k ∈ dict_keys (dict_set d k0 v) <-> k = k0 \/ k ∈ dict_keys d.
Proof.
  unfold dict_keys. induction d as [|[k' v'] d IH]; simpl.
  - rewrite list_elem_of_singleton, elem_of_nil. tauto.
  - destruct (decide (k' = k0)) as [->|Hne]; simpl.
    + rewrite !elem_of_cons. tauto.
    + rewrite !elem_of_cons, IH. tauto.
Qed.

(** Storing the same value under each key of [e]. *)
Lemma dict_get_update_const {K V} `{EqDecision K} (e : list K) (v : V)
    (d : list (K * V)) (k : K) :
  dict_get (dict_update d (map (fun t => (t, v)) e)) k
  = if decide (k ∈ e) then Some v else dict_get d k.
Proof.
  unfold dict_update. revert d.
  induction e as [|t e IH]; intros d.
  - case_decide as Hin; [by apply elem_of_nil in Hin|done].
  - cbn [map fold_left fst snd]. rewrite IH.
    destruct (decide (k ∈ e)) as [Hin|Hnin].
    + case_decide as Hk; [done|]. exfalso. apply Hk. by right.
    + destruct (decide (t = k)) as [->|Hne].
      * rewrite dict_get_set_eq.
        case_decide as Hk; [done|]. exfalso. apply Hk. by left.
      * rewrite dict_get_set_ne by done.
        case_decide as Hk; [|done].
        apply elem_of_cons in Hk as [->|?]; done.
Qed.

Lemma dict_update_const_keys {K V} `{EqDecision K} (e : list K) (v : V)
    (d : list (K * V)) :
  Forall (fun kv => snd kv = v) d ->
  Forall (fun kv => snd kv = v) (dict_update d (map (fun t => (t, v)) e)) /\
  forall k, k ∈ dict_keys (dict_update d (map (fun t => (t, v)) e))
            <-> k ∈ dict_keys d \/ k ∈ e.
Proof.
  unfold dict_update. revert d.
  induction e as [|t e IH]; intros d Hd; simpl.
  - split; [done|]. intros k. rewrite elem_of_nil. tauto.
  - assert (Hset : Forall (fun kv => snd kv = v) (dict_set d t v)).
    { clear IH. induction d as [|[k' v'] d IHd]; simpl.
      - by repeat constructor.
      - apply Forall_cons in Hd as [Hv Hd].
        destruct (decide (k' = t)); constructor; auto. }
    destruct (IH (dict_set d t v) Hset) as [Hall Hkeys].
    split; [done|]. intros k.
    rewrite Hkeys, dict_keys_set, elem_of_cons. tauto.
Qed.

Lemma const_dict_map {K V} (v : V) (d : list (K * V)) :
  Forall (fun kv => snd kv = v) d -> d = map (fun t => (t, v)) (dict_keys d).
Proof.
  induction 1 as [|[k v'] d Hv Hd IH]; simpl; [done|].
  simpl in Hv. subst v'. by rewrite <- IH.
Qed.

(** One step of the loop of [get_binds]: the tables [ts] now map to [v],
    every other key keeps what it had. *)
Lemma dict_get_assign {K V} `{EqDecision K} (ts : list K) (v : V)
    (retval : list (K * V)) (k : K) :
  dict_get (dict_update retval
              (dict_update [] (map (fun t => (t, v)) ts))) k
  = if decide (k ∈ ts) then Some v else dict_get retval k.
Proof.
  destruct (dict_update_const_keys ts v [] (Forall_nil_2 _)) as [Hall Hkeys].
  rewrite (const_dict_map v _ Hall), dict_get_update_const.
  destruct (decide (k ∈ ts)) as [Hin|Hnin].
  - rewrite decide_True; [done|]. apply Hkeys. by right.
  - rewrite decide_False; [done|].
    rewrite Hkeys. intros [Hk|?]; [|done]. by apply elem_of_nil in Hk.
Qed.

Lemma dict_set_fresh {K V} `{EqDecision K} (d : list (K * V)) k v :
  k ∉ dict_keys d -> dict_set d k v = d ++ [(k, v)].
Proof.
  unfold dict_keys. induction d as [|[k' v'] d IH]; simpl; [done|].
  intros Hk. apply not_elem_of_cons in Hk as [Hne Hk].
  rewrite decide_False by done. by rewrite IH.
Qed.

(** Keys that are new and distinct are appended in order. *)
Lemma dict_update_fresh {K V} `{EqDecision K} (e d : list (K * V)) :
  NoDup (dict_keys e) ->
  (forall k, k ∈ dict_keys e -> k ∉ dict_keys d) ->
  dict_update d e = d ++ e.
Proof.
  unfold dict_update, dict_keys. revert d.
  induction e as [|[k v] e IH]; intros d Hnd Hfresh; simpl.
  - by rewrite app_nil_r.
  - apply NoDup_cons in Hnd as [Hk Hnd].
    rewrite dict_set_fresh by (apply Hfresh; by left).
    rewrite IH; [by rewrite <- app_assoc|done|].
    intros k0 Hk0. rewrite fmap_app, elem_of_app. simpl.
    rewrite list_elem_of_singleton.
    intros [Hd| ->]; [|done]. revert Hd. apply Hfresh. by right.
Qed.

Section RoutingFacts.
Variable self : SQLAlchemy.

Lemma routing_cons (p : bind_id * engine) (pairs : list (bind_id * engine))
    (retval : list (Table * option engine)) :
  routing self (p :: pairs) retval
  = routing self pairs (assign_tables self retval (fst p) (Some (snd p))).
Proof. reflexivity. Qed.

Lemma elem_of_tables_for_bind (table : Table) (b : bind_id) :
  table ∈ get_tables_for_bind self b <->
  table ∈ tables self /\ bind_key table = bind_value b.
Proof.
  unfold get_tables_for_bind. rewrite tables_loop_filter.
  cbn [app]. by rewrite list_elem_of_filter, (comm and).
Qed.

Lemma bind_value_inj (b b' : bind_id) :
  bind_value b = bind_value b' -> b = b'.
Proof. destruct b, b'; simpl; congruence. Qed.

Lemma tables_for_bind_NoDup (b : bind_id) :
  NoDup (tables self) -> NoDup (get_tables_for_bind self b).
Proof.
  intros Hnd. unfold get_tables_for_bind. rewrite tables_loop_filter.
  cbn [app]. by apply NoDup_filter.
Qed.

Lemma routing_keep (pairs : list (bind_id * engine)) :
  forall retval table,
    (forall p, p ∈ pairs -> table ∉ get_tables_for_bind self (fst p)) ->
    dict_get (routing self pairs retval) table = dict_get retval table.
Proof.
  induction pairs as [|p pairs IH]; intros retval table Hnot; [done|].
  rewrite routing_cons.
  rewrite IH by (intros p' Hp'; apply Hnot; by right).
  unfold assign_tables. rewrite dict_get_assign.
  rewrite decide_False; [done|]. apply Hnot. by left.
Qed.

Lemma routing_same (pairs : list (bind_id * engine)) :
  forall retval table rv,
    (forall p, p ∈ pairs -> table ∈ get_tables_for_bind self (fst p) ->
               snd p = rv) ->
    dict_get retval table = Some (Some rv) ->
    dict_get (routing self pairs retval) table = Some (Some rv).
Proof.
  induction pairs as [|p pairs IH]; intros retval table rv Hsame Hget;
    [done|].
  rewrite routing_cons.
  apply IH; [intros p' Hp'; apply Hsame; by right|].
  unfold assign_tables. rewrite dict_get_assign.
  case_decide as Hin; [|done].
  by rewrite (Hsame p (list_elem_of_here _ _) Hin).
Qed.

(** A table owned by a listed bind maps to that bind's engine. *)
Lemma routing_lookup (pairs : list (bind_id * engine)) :
  forall retval table b rv,
    (forall b0 rv1 rv2, (b0, rv1) ∈ pairs -> (b0, rv2) ∈ pairs -> rv1 = rv2) ->
    (b, rv) ∈ pairs ->
    table ∈ get_tables_for_bind self b ->
    dict_get (routing self pairs retval) table = Some (Some rv).
Proof.
  induction pairs as [|p pairs IH]; intros retval table b rv Hfun Hin Hown.
  - by apply elem_of_nil in Hin.
  - rewrite routing_cons.
    destruct (decide ((b, rv) ∈ pairs)) as [Hrest|Hrest].
    + eapply IH; [|done|done].
      intros b0 rv1 rv2 H1 H2. apply (Hfun b0); by right.
    + apply elem_of_cons in Hin as [<-|Hin]; [|done].
      apply routing_same.
      * intros [b' rv'] Hp' Hown'. cbn in *.
        apply elem_of_tables_for_bind in Hown as [_ Hb].
        apply elem_of_tables_for_bind in Hown' as [_ Hb'].
        assert (b' = b) as -> by (apply bind_value_inj; congruence).
        apply (Hfun b); [by right|by left].
      * unfold assign_tables. rewrite dict_get_assign.
        by rewrite decide_True.
Qed.

(** With no table declared twice and no bind listed twice, the mapping
    lists the tables bind by bind. *)
Lemma routing_order (pairs : list (bind_id * engine)) :
  forall retval,
    NoDup (tables self) ->
    NoDup (map fst pairs) ->
    (forall p table, p ∈ pairs -> table ∈ get_tables_for_bind self (fst p) ->
                     table ∉ dict_keys retval) ->
    routing self pairs retval = retval ++ flat_map (rows self) pairs.
Proof.
  induction pairs as [|p pairs IH]; intros retval Htables Hbinds Hfresh.
  - cbn. by rewrite app_nil_r.
  - rewrite routing_cons. cbn [flat_map].
    apply NoDup_cons in Hbinds as [Hp Hbinds].
    assert (Hstep : assign_tables self retval (fst p) (Some (snd p))
                    = retval ++ rows self p).
    { unfold assign_tables, rows.
      assert (Hkeys : dict_keys (map (fun table => (table, Some (snd p)))
                                     (get_tables_for_bind self (fst p)))
                      = get_tables_for_bind self (fst p)).
      { unfold dict_keys. rewrite map_map. cbn. apply map_id. }
      rewrite (dict_update_fresh _ []);
        [|rewrite Hkeys; by apply tables_for_bind_NoDup
         |intros k _; apply not_elem_of_nil].
      cbn [app]. apply dict_update_fresh.
      - rewrite Hkeys. by apply tables_for_bind_NoDup.
      - intros k Hk. rewrite Hkeys in Hk.
        apply (Hfresh p); [by left|done]. }
    rewrite Hstep, IH; [by rewrite <- app_assoc|done|done|].
    intros p' table Hp' Hown.
    unfold dict_keys. rewrite fmap_app, elem_of_app.
    intros [Hold|Hnew].
    + revert Hold. apply (Hfresh p'); [by right|done].
    + unfold rows in Hnew. rewrite <- list_fmap_compose in Hnew.
      cbn in Hnew. rewrite list_fmap_id in Hnew.
      apply elem_of_tables_for_bind in Hown as [_ Hb'].
      apply elem_of_tables_for_bind in Hnew as [_ Hb].
      apply Hp. rewrite (bind_value_inj (fst p) (fst p')) by congruence.
      apply list_elem_of_fmap. by exists p'.
Qed.

End RoutingFacts.

Lemma Forall2_zip_elem {A B} (P : A -> B -> Prop) (l : list A) (k : list B) :
  Forall2 P l k -> forall x y, (x, y) ∈ zip l k -> P x y.
Proof.
  induction 1 as [|x y l k Hxy Hall IH]; intros x0 y0 Hin; cbn in Hin.
  - by apply elem_of_nil in Hin.
  - apply elem_of_cons in Hin as [[= -> ->]|Hin]; [done|by apply IH].
Qed.

Lemma Forall2_zip_left {A B} (P : A -> B -> Prop) (l : list A) (k : list B) :
  Forall2 P l k -> forall x, x ∈ l -> exists y, (x, y) ∈ zip l k.
Proof.
  induction 1 as [|x y l k Hxy Hall IH]; intros x0 Hin.
  - by apply elem_of_nil in Hin.
  - apply elem_of_cons in Hin as [->|Hin].
    + exists y. by left.
    + destruct (IH x0 Hin) as [y0 Hy0]. exists y0. by right.
Qed.

Lemma Forall2_zip_fst {A B} (P : A -> B -> Prop) (l : list A) (k : list B) :
  Forall2 P l k -> map fst (zip l k) = l.
Proof. induction 1; cbn; congruence. Qed.

Section GetBindsFacts.
Context `{Library}.
Variable self : SQLAlchemy.

Lemma binds_loop_routing (binds : list bind_id) :
  forall (w : world) (connectors : gmap bind_id connector)
         (retval : list (Table * option engine)),
    extensions w = Some connectors ->
    world_wf w ->
    (forall b, b ∈ binds ->
               constructible (use_native_unicode self) (config w) b) ->
    exists engines w',
      binds_loop self App binds retval w
      = (Ok (routing self (zip binds engines) retval), w') /\
      config w' = config w /\ self_app w' = self_app w /\
      calls w' = calls w /\
      Forall2 (holds w') binds engines /\
      (forall b0 rv0, holds w b0 rv0 -> holds w' b0 rv0).
Proof.
  induction binds as [|b binds IH]; intros w connectors retval Hext Hwf Hcan.
  - exists [], w. by repeat (split; [done|]).
  - destruct (get_engine_step self w b (Some App) connectors)
      as (rv & w1 & Hcall & Hcfg1 & Hself1 & Hcalls1 & _ & _
          & [connectors1 Hext1] & Hwf1 & Hholds1 & Hkeep1);
      [by left|done|done|apply Hcan; by left|].
    destruct (IH w1 connectors1 (assign_tables self retval b (Some rv)))
      as (engines & w' & Hloop & Hcfg & Hself & Hcalls & Hall & Hkeep);
      [done|done| |].
    { intros b0 Hb0. rewrite Hcfg1. apply Hcan. by right. }
    exists (rv :: engines), w'. split.
    { cbn [binds_loop]. unfold bind at 1. rewrite Hcall. exact Hloop. }
    split; [congruence|]. split; [congruence|]. split; [congruence|].
    split; [|by auto].
    constructor; [by apply Hkeep|done].
Qed.

End GetBindsFacts.

(** C7: let [d] be the secondary-URI mapping and let the engine of the
    primary bind and of every key of [d] be constructible.  Then
    [get_binds] returns a mapping [m], having visited the binds in the
    order primary, then the keys of [d] in their order, with one engine per
    bind, the one [get_engine] resolves for it.  Every declared table owned
    by one of these binds maps to the engine of its bind; a table that is
    not declared, or is owned by none of them, is not in [m]; and when no
    table is declared twice and no key of [d] repeats, the items of [m]
    are the tables of the primary bind, then those of each secondary bind,
    in that order, each with the engine of its bind. *)
Theorem get_binds_routing `{Library} (self : SQLAlchemy) (w : world)
    (app : option application) (connectors : gmap bind_id connector)
    (d : list (string * string)) :
  let binds := None :: map Some (dict_keys d) in
  app_available app w ->
  extensions w = Some connectors ->
  world_wf w ->
  secondary_binds (config w) d ->
  (forall b, b ∈ binds ->
             constructible (use_native_unicode self) (config w) b) ->
  exists engines m w',
    get_binds self app w = (Ok m, w') /\
    Forall2 (fun b rv => get_engine self app b w' = (Ok (Some rv), w'))
            binds engines /\
    (forall table b,
        table ∈ tables self -> b ∈ binds ->
        bind_key table = bind_value b ->
        exists rv, dict_get m table = Some (Some rv) /\
                   get_engine self app b w' = (Ok (Some rv), w')) /\
    (forall table,
        table ∉ tables self \/
        (forall b, b ∈ binds -> bind_key table <> bind_value b) ->
        dict_get m table = None) /\
    (NoDup (tables self) -> NoDup (dict_keys d) ->
     m = flat_map (rows self) (zip binds engines)).
Proof.
  intros binds Happ Hext Hwf Hd Hcan.
  destruct (binds_loop_routing self binds w connectors [] Hext Hwf Hcan)
    as (engines & w' & Hloop & Hcfg & Hself & _ & Hall & _).
  assert (Happ' : app_available app w').
  { destruct Happ as [?|Happ]; [by left|right; congruence]. }
  exists engines, (routing self (zip binds engines) []), w'.
  split; [|split; [|split; [|split]]].
  - unfold get_binds, bind.
    rewrite (get_app_available app w Happ).
    by rewrite (configured_binds_secondary (config w) d Hd).
  - eapply Forall2_impl; [exact Hall|].
    intros b rv Hholds. by apply holds_get_engine.
  - intros table b Htable Hb Hown.
    destruct (Forall2_zip_left _ _ _ Hall b Hb) as [rv Hrv].
    exists rv. split.
    + apply routing_lookup with (b := b); [|done|].
      * intros b0 rv1 rv2 H1 H2.
        apply (holds_unique w' b0); by eapply Forall2_zip_elem.
      * by apply elem_of_tables_for_bind.
    + apply holds_get_engine; [done|]. by eapply Forall2_zip_elem.
  - intros table Hnot. rewrite routing_keep; [done|].
    intros [b rv] Hp [Htable Hown]%elem_of_tables_for_bind. cbn in Hown.
    destruct Hnot as [Hnot|Hnot]; [done|].
    apply (Hnot b); [|done].
    apply elem_of_zip_l in Hp. exact Hp.
  - intros Htables Hkeys.
    rewrite routing_order; [done|done| |].
    + refine (eq_ind_r NoDup _ (Forall2_zip_fst _ _ _ Hall)). subst binds.
      apply NoDup_cons. split.
      * intros (s & Hs & _)%list_elem_of_fmap. done.
      * apply NoDup_fmap; [|done]. by intros ? ? [=].
    + intros p table _ _. apply not_elem_of_nil.
Qed.

Lemma get_binds_routing_witness :
  exists engines m w',
    @get_binds plain_library sample_db None (initialized reporting_config)
    = (Ok m, w') /\
    m = flat_map (rows sample_db)
          (zip [None; Some "reporting"; Some "archive"] engines) /\
    List.length engines = 3%nat.
Proof.
  destruct (@get_binds_routing plain_library sample_db
              (initialized reporting_config) None ∅
              [("reporting", "sqlite:////tmp/reporting.db");
               ("archive", "mysql://u@h/archive")]
              (or_intror eq_refl) eq_refl
              (world_wf_init (fresh_world reporting_config))
              (or_introl eq_refl) reporting_constructible)
    as (engines & m & w' & Hcall & Hall & _ & _ & Horder).
  exists engines, m, w'. split; [exact Hcall|]. split.
  - apply Horder; apply (bool_decide_unpack _); by vm_compute.
  - symmetry. exact (Forall2_length _ _ _ Hall).
Defined.

(* ===================================================================== *)
(** * Further properties of the module *)
(* ===================================================================== *)

(** ** init_app *)

Lemma py_or_idem (v fallback : pyval) :
  py_or (py_or v fallback) fallback = py_or v fallback.
Proof.
  unfold py_or. destruct (truthy v) eqn:Hv; [by rewrite Hv|].
  by destruct (truthy fallback).
Qed.

(** X1: running [init_app] a second time leaves the configuration the
    first run produced. *)
Theorem init_app_idempotent (w : world) :
  config (snd (init_app App (snd (init_app App w))))
  = config (snd (init_app App w)).
Proof.
  cbn [init_app snd config]. apply map_eq. intros k.
  rewrite !init_config_lookup.
  destruct (dict_get recognized_options k) as [fallback|] eqn:Hk; [|done].
  rewrite (init_config_get _ k fallback) by by apply dict_get_in.
  by rewrite py_or_idem.
Qed.

(** X2: after [init_app] a recognized option holds the value it was given
    if that value is truthy and its default otherwise, and every key that
    is not a recognized option is as it was, present or absent. *)
Theorem init_app_values (w : world) (key : string) :
  config (snd (init_app App w)) !! key =
  match dict_get recognized_options key with
  | Some fallback =>
      Some (if truthy (config_get (config w) key)
            then config_get (config w) key else fallback)
  | None => config w !! key
  end.
Proof. cbn [init_app snd config]. apply init_config_lookup. Qed.

(** X3: the warning of [init_app] goes by which keys are present, the
    fallback URI by what the primary URI holds.  The warning is issued
    exactly when neither the primary URI nor the binds key is present; the
    in-memory fallback replaces every falsy primary URI, so a URI that is
    present but empty, or absent beside a binds key, is replaced without a
    warning. *)
Theorem init_app_warning (w : world) :
  let w' := snd (init_app App w) in
  warned w' =
    (if bool_decide (config w !! "SQLALCHEMY_DATABASE_URI" = None /\
                     config w !! "SQLALCHEMY_BINDS" = None)
     then warned w ++ [no_uri_warning] else warned w) /\
  config_get (config w') "SQLALCHEMY_DATABASE_URI" =
    (if truthy (config_get (config w) "SQLALCHEMY_DATABASE_URI")
     then config_get (config w) "SQLALCHEMY_DATABASE_URI"
     else VStr fallback_uri).
Proof.
  split.
  - cbn [init_app snd warned].
    destruct (decide _) as [Hboth|Hnot].
    + by rewrite bool_decide_eq_true_2.
    + by rewrite bool_decide_eq_false_2.
  - cbn [init_app snd config].
    rewrite (init_config_get _ "SQLALCHEMY_DATABASE_URI" (VStr fallback_uri));
      [done|]. apply (bool_decide_unpack _). by vm_compute.
Qed.

Example init_app_empty_uri_silent :
  let w := snd (init_app App
                  (fresh_world {[ "SQLALCHEMY_DATABASE_URI" := VStr "" ]})) in
  warned w = [] /\
  config_get (config w) "SQLALCHEMY_DATABASE_URI" = VStr fallback_uri.
Proof. by vm_compute. Qed.

(** ** Lifecycle errors *)



(** ** Engine Connector: failures *)

(** X5: a call of the connector's [get_engine] that raises leaves the
    connector exactly as it was, cached handle and recorded pair included,
    and constructs no object. *)
Theorem connector_failure_keeps_state `{Library} (unicode : pyval)
    (cfg : gmap string pyval) (self self' : connector) (next next' : nat)
    (e : exn) :
  EngineConnector.get_engine unicode cfg self next = (Raise e, self', next') ->
  self' = self /\ next' = next.
Proof.
  intros Hcall.
  destruct (get_engine_cases unicode cfg self next)
    as [[e0 He]|[(uri & _ & _ & He)
               |(uri & info & info' & options & _ & _ & _ & _ & He)]];
    rewrite He in Hcall; by injection Hcall.
Qed.

Lemma connector_failure_keeps_state_witness :
  @EngineConnector.get_engine plain_library (VBool true) bad_pool_config
     (new_connector None) 5%nat
  = (Raise (RuntimeError in_memory_message), new_connector None, 5%nat) /\
  new_connector None = new_connector None /\ 5%nat = 5%nat.
Proof.
  split; [reflexivity|].
  exact (@connector_failure_keeps_state plain_library (VBool true)
           bad_pool_config (new_connector None) (new_connector None)
           5%nat 5%nat (RuntimeError in_memory_message) eq_refl).
Defined.

(** ** Table Bind Resolver: ownership *)

(** X6: no table is returned for two different binds, and a table returned
    for a bind is returned for it as often as it is declared. *)
Theorem tables_for_binds_disjoint (self : SQLAlchemy) (b b' : bind_id)
    (table : Table) :
  (table ∈ get_tables_for_bind self b /\ table ∈ get_tables_for_bind self b'
   -> b = b') /\
  (bind_key table = bind_value b ->
   count_occ Table_eq_dec (get_tables_for_bind self b) table
   = count_occ Table_eq_dec (tables self) table).
Proof.
  split.
  - intros [[_ Hb]%elem_of_tables_for_bind [_ Hb']%elem_of_tables_for_bind].
    apply bind_value_inj. congruence.
  - intros Hown. unfold get_tables_for_bind. rewrite tables_loop_filter.
    cbn [app]. induction (tables self) as [|t ts IH]; [done|].
    rewrite filter_cons. destruct (decide (bind_key t = bind_value b)).
    + cbn [count_occ]. by rewrite IH.
    + cbn [count_occ]. rewrite IH.
      destruct (Table_eq_dec t table) as [->|]; done.
Qed.

(** ** The connector cache and init_app *)

(** X7: [init_app] starts the extension state anew.  Whatever the cache
    held before, the first engine requested afterwards is constructed,
    with the identity of a new object, also when the configuration has not
    changed. *)
Theorem init_app_discards_engines `{Library} (self : SQLAlchemy) (w : world)
    (app : option application) (b : bind_id) :
  constructible (use_native_unicode self) (init_config (config w)) b ->
  exists rv w',
    get_engine self app b (snd (init_app App w)) = (Ok (Some rv), w') /\
    eid rv = next_id w /\ next_id w' = S (next_id w) /\
    holds w' b rv.
Proof.
  intros (uri & info & info' & options & Huri & Hurl & Hhacks & Hcreate).
  set (w1 := snd (init_app App w)).
  rewrite (get_engine_world self app b w1 ∅); [|by right|done].
  rewrite lookup_empty. cbn [default].
  rewrite (get_engine_constructs (use_native_unicode self) (config w1)
             (new_connector b) (next_id w1) uri info info' options);
    try done.
  eexists _, _. split; [reflexivity|]. split; [done|]. split; [done|].
  eexists _, _, uri. split; [reflexivity|].
  rewrite lookup_insert_eq. do 3 (split; [done|]).
  apply same_connection_refl.
Qed.

Lemma init_app_discards_engines_witness :
  exists rv1 rv2 w1 w2,
    @get_engine plain_library sample_db None None
       (initialized reporting_config) = (Ok (Some rv1), w1) /\
    @get_engine plain_library sample_db None None (snd (init_app App w1))
    = (Ok (Some rv2), w2) /\
    eid rv1 = 0%nat /\ eid rv2 = 1%nat.
Proof.
  destruct (@init_app_discards_engines plain_library sample_db
              (fresh_world reporting_config) None None
              (reporting_constructible None ltac:(by left)))
    as (rv1 & w1 & Hcall1 & Hid1 & Hnext1 & _).
  destruct (@init_app_discards_engines plain_library sample_db w1 None None)
    as (rv2 & w2 & Hcall2 & Hid2 & _).
  { assert (Hcfg : config w1 = config (initialized reporting_config)).
    { pose proof (f_equal snd Hcall1) as Hw. cbn [snd] in Hw. rewrite <- Hw.
      reflexivity. }
    rewrite Hcfg. unfold constructible.
    eexists _, _, _, _. repeat (split; [reflexivity|]). reflexivity. }
  exists rv1, rv2, w1, w2. split; [exact Hcall1|]. split; [exact Hcall2|].
  split; [exact Hid1|]. by rewrite Hid2, Hnext1.
Defined.

(** X8: requesting the engine of a bind that is not declared fails after
    the connector for it has been put into the cache: the new connector
    stays there, holding no engine, and nothing else changes. *)
Theorem unregistered_bind_caches_connector `{Library} (self : SQLAlchemy)
    (w : world) (app : option application)
    (connectors : gmap bind_id connector) (b : string)
    (d : list (string * string)) :
  app_available app w ->
  extensions w = Some connectors ->
  connectors !! (Some b : bind_id) = None ->
  secondary_binds (config w) d ->
  dict_get d b = None ->
  get_engine self app (Some b) w =
  (Raise (AssertionError (bind_not_specified b)),
   store_connector w connectors (Some b) (new_connector (Some b)) (next_id w)).
Proof.
  intros Happ Hext Hnew Hd Hb.
  rewrite (get_engine_world self app (Some b) w connectors Happ Hext).
  rewrite Hnew. cbn [default].
  assert (Huri : EngineConnector.get_uri (config w) (new_connector (Some b))
                 = Raise (AssertionError (bind_not_specified b))).
  { unfold EngineConnector.get_uri. cbn [_bind new_connector].
    destruct Hd as [Hd|[Hfalsy ->]].
    - rewrite Hd. destruct d as [|kv d]; [done|]. cbn [truthy].
      by rewrite Hb.
    - by rewrite Hfalsy. }
  unfold EngineConnector.get_engine. by rewrite Huri.
Qed.

Lemma unregistered_bind_caches_connector_witness :
  let w := initialized reporting_config in
  let r := @get_engine plain_library sample_db None (Some "missing") w in
  fst r = Raise (AssertionError (bind_not_specified "missing")) /\
  extensions (snd r)
  = Some {[ Some "missing" := new_connector (Some "missing") ]} /\
  next_id (snd r) = 0%nat.
Proof.
  intros w r. subst r.
  rewrite (@unregistered_bind_caches_connector plain_library sample_db w None
             ∅ "missing"
             [("reporting", "sqlite:////tmp/reporting.db");
              ("archive", "mysql://u@h/archive")]
             (or_intror eq_refl) eq_refl eq_refl (or_introl eq_refl) eq_refl).
  by repeat split.
Defined.

(** ** Driver adjustments: SQLite files and other drivers *)

Lemma driver_step_other_key (info info' : URL)
    (options options' : gmap string optval) (k : string) :
  k <> "pool_size" -> k <> "pool_recycle" -> k <> "poolclass" ->
  k <> "connect_args" ->
  driver_step info options = Ok (info', options') ->
  options' !! k = options !! k.
Proof.
  intros H1 H2 H3 H4. unfold driver_step.
  destruct (String.prefix "mysql" (drivername info)).
  - cbn [set_query drivername].
    destruct (negb _); intros [= <- <-]; [|done].
    rewrite !options_setdefault_lookup. by rewrite !decide_False by congruence.
  - destruct (String.eqb (drivername info) "sqlite"); [|by intros [= <- <-]].
    destruct (in_memory_database (database info)).
    + destruct (opt_is_zero _); [done|]. intros [= <- <-].
      rewrite lookup_alter_ne by congruence.
      rewrite (lookup_insert_ne options "poolclass" "connect_args") by done.
      destruct (options !! "connect_args");
        by rewrite !lookup_insert_ne by congruence.
    + destruct (opt_not _); intros [= <- <-]; [|done].
      by rewrite lookup_insert_ne by congruence.
Qed.

(** X9: for the [sqlite] driver on a database that is a file, the
    adjustments succeed whenever the unicode option is in the
    configuration; pooling is switched off ([NullPool]) exactly when the
    configured pool size is falsy or absent, a truthy pool size is passed
    on with no pool class, and nothing is said about [connect_args]. *)
Theorem sqlite_file_pooling (unicode : pyval) (cfg : gmap string pyval)
    (info : URL) :
  drivername info = "sqlite" ->
  in_memory_database (database info) = false ->
  is_Some (cfg !! "SQLALCHEMY_NATIVE_UNICODE") ->
  exists options,
    apply_driver_hacks unicode cfg info (apply_pool_defaults cfg ∅)
    = Ok (info, options) /\
    options !! "poolclass" =
      (if truthy (config_get cfg "SQLALCHEMY_POOL_SIZE") then None
       else Some (OPool NullPool)) /\
    options !! "pool_size" = configured cfg "SQLALCHEMY_POOL_SIZE" /\
    options !! "connect_args" = None.
Proof.
  intros Hsqlite Hfile Hunicode.
  rewrite apply_driver_hacks_steps. unfold driver_step.
  rewrite Hsqlite, Hfile. cbn [String.prefix String.eqb Ascii.eqb].
  cbn [String.eqb]. simpl String.eqb. cbv iota.
  assert (Hnot : opt_not (apply_pool_defaults cfg ∅ !! "pool_size")
                 = negb (truthy (config_get cfg "SQLALCHEMY_POOL_SIZE"))).
  { rewrite pool_defaults_pool_size. unfold configured.
    destruct (decide _) as [->|]; done. }
  rewrite Hnot.
  destruct (truthy (config_get cfg "SQLALCHEMY_POOL_SIZE")); cbn [negb].
  - destruct (native_unicode_step_ok unicode cfg info
                (apply_pool_defaults cfg ∅) Hunicode)
      as (options & Hstep & Hkeep).
    exists options. split; [done|]. rewrite !Hkeep by done.
    rewrite pool_defaults_pool_size.
    by rewrite !pool_defaults_only.
  - destruct (native_unicode_step_ok unicode cfg info
                (<["poolclass" := OPool NullPool]> (apply_pool_defaults cfg ∅))
                Hunicode)
      as (options & Hstep & Hkeep).
    exists options. split; [done|]. rewrite !Hkeep by done.
    rewrite lookup_insert_eq. rewrite !lookup_insert_ne by done.
    rewrite pool_defaults_pool_size. by rewrite pool_defaults_only.
Qed.

Lemma sqlite_file_pooling_witness :
  exists options,
    apply_driver_hacks (VBool true) (init_config reporting_config)
      {| drivername := "sqlite"; database := Some "/tmp/reporting.db";
         query := [] |}
      (apply_pool_defaults (init_config reporting_config) ∅)
    = Ok ({| drivername := "sqlite"; database := Some "/tmp/reporting.db";
             query := [] |}, options) /\
    options !! "poolclass" = Some (OPool NullPool).
Proof.
  destruct (sqlite_file_pooling (VBool true) (init_config reporting_config)
              {| drivername := "sqlite"; database := Some "/tmp/reporting.db";
                 query := [] |} eq_refl eq_refl
              (init_config_native_unicode reporting_config))
    as (options & Hhacks & Hclass & _).
  exists options. split; [exact Hhacks|exact Hclass].
Defined.

(** ** Native unicode *)

(** X10: after [init_app], whether [use_native_unicode=False] is handed to
    [create_engine] is decided as follows: a truthy
    [SQLALCHEMY_NATIVE_UNICODE] entry means it is not; any falsy entry,
    [False] included, has become [None], and the flag given to the
    extension's constructor decides.  An application-level [False]
    therefore disables nothing when the constructor flag is true. *)
Theorem native_unicode_after_init (unicode : pyval) (cfg0 : gmap string pyval)
    (info info' : URL) (options options' : gmap string optval) :
  apply_driver_hacks unicode (init_config cfg0) info options
    = Ok (info', options') ->
  options' !! "use_native_unicode" =
  if truthy (config_get cfg0 "SQLALCHEMY_NATIVE_UNICODE") || truthy unicode
  then options !! "use_native_unicode"
  else Some (OV (VBool false)).
Proof.
  rewrite apply_driver_hacks_steps.
  destruct (driver_step info options) as [[info1 options1]|] eqn:Hstep;
    [|done].
  assert (Hkeep : options1 !! "use_native_unicode"
                  = options !! "use_native_unicode").
  { by apply (driver_step_other_key info info1). }
  unfold native_unicode_step, config_item.
  rewrite init_config_lookup.
  assert (dict_get recognized_options "SQLALCHEMY_NATIVE_UNICODE" = Some VNone)
    as -> by (by vm_compute).
  unfold py_or.
  destruct (truthy (config_get cfg0 "SQLALCHEMY_NATIVE_UNICODE")) eqn:Htruthy.
  - rewrite decide_False by (intros Hnone; by rewrite Hnone in Htruthy).
    rewrite Htruthy. cbn [negb orb]. intros [= _ <-]. exact Hkeep.
  - rewrite decide_True by done. cbn [orb].
    destruct (truthy unicode); cbn [negb]; intros [= _ <-]; [exact Hkeep|].
    apply lookup_insert_eq.
Qed.

Lemma native_unicode_after_init_witness :
  apply_driver_hacks (VBool true)
    (init_config {[ "SQLALCHEMY_NATIVE_UNICODE" := VBool false ]})
    postgres_url ∅ = Ok (postgres_url, ∅) /\
  (∅ : gmap string optval) !! "use_native_unicode" = None.
Proof.
  assert (Hhacks : apply_driver_hacks (VBool true)
            (init_config {[ "SQLALCHEMY_NATIVE_UNICODE" := VBool false ]})
            postgres_url ∅ = Ok (postgres_url, ∅))
    by (vm_compute; reflexivity).
  split; [exact Hhacks|].
  exact (native_unicode_after_init _ _ _ _ _ _ Hhacks).
Defined.

(** ** Lifecycle hook: failures *)

(** X11: the failure paths of the response middleware.  If the
    commit-on-response key is missing from the configuration, the lookup
    fails inside the [try]: [rollback()] and [remove()] are called and the
    key error is raised.  If [rollback()] itself raises after a failed
    commit, its exception is the one raised, and [remove()] has still been
    called.  And whenever [remove()] raises, its exception is what the
    middleware raises. *)
Theorem shutdown_session_failures (cfg : gmap string pyval)
    (s : session_behaviour) (trace : list session_call) :
  (cfg !! "SQLALCHEMY_COMMIT_ON_RESPONSE" = None ->
   snd (shutdown_session cfg s trace) = trace ++ [Rollback; Remove] /\
   (rollback_raises s = None -> remove_raises s = None ->
    fst (shutdown_session cfg s trace)
    = Raise (KeyError "SQLALCHEMY_COMMIT_ON_RESPONSE"))) /\
  (forall flag e e',
      cfg !! "SQLALCHEMY_COMMIT_ON_RESPONSE" = Some flag ->
      truthy flag = true ->
      commit_raises s = Some e -> rollback_raises s = Some e' ->
      snd (shutdown_session cfg s trace)
      = trace ++ [Commit; Rollback; Remove] /\
      (remove_raises s = None ->
       fst (shutdown_session cfg s trace) = Raise e')) /\
  (forall e, remove_raises s = Some e ->
             fst (shutdown_session cfg s trace) = Raise e).
Proof.
  unfold shutdown_session, try_finally, try_except, config_item.
  split; [|split].
  - intros ->. unfold call_session. split.
    + destruct (rollback_raises s), (remove_raises s); cbn;
        by rewrite <- !app_assoc.
    + by intros -> ->.
  - intros flag e e' -> -> Hcommit Hrollback. unfold call_session.
    rewrite Hcommit, Hrollback. split.
    + destruct (remove_raises s); cbn; by rewrite <- !app_assoc.
    + by intros ->.
  - intros e Hremove. unfold call_session. rewrite Hremove.
    destruct (cfg !! "SQLALCHEMY_COMMIT_ON_RESPONSE") as [flag|];
      [destruct (truthy flag)|];
      destruct (commit_raises s), (rollback_raises s); reflexivity.
Qed.

Example shutdown_session_missing_key :
  shutdown_session ∅
    {| commit_raises := None; rollback_raises := None;
       remove_raises := None |} []
  = (Raise (KeyError "SQLALCHEMY_COMMIT_ON_RESPONSE"), [Rollback; Remove]).
Proof. reflexivity. Qed.

(** ** The echo keyword *)

Lemma apply_driver_hacks_other_key (unicode : pyval) (cfg : gmap string pyval)
    (info info' : URL) (options options' : gmap string optval) (k : string) :
  k <> "pool_size" -> k <> "pool_recycle" -> k <> "poolclass" ->
  k <> "connect_args" -> k <> "use_native_unicode" ->
  apply_driver_hacks unicode cfg info options = Ok (info', options') ->
  options' !! k = options !! k.
Proof.
  intros H1 H2 H3 H4 H5. rewrite apply_driver_hacks_steps.
  destruct (driver_step info options) as [[info1 options1]|] eqn:Hstep;
    [|done].
  intros [_ Hkeep]%native_unicode_step_inv.
  rewrite Hkeep by done. by apply (driver_step_other_key info info1).
Qed.

(** X12: an engine constructed by a connector that had recorded nothing
    gets the keyword [echo] exactly when the configured echo flag is
    truthy, and then with that very value. *)
Theorem echo_keyword `{Library} (unicode : pyval) (cfg : gmap string pyval)
    (self self' : connector) (next next' : nat) (rv : engine) :
  _connected_for self = None ->
  EngineConnector.get_engine unicode cfg self next
    = (Ok (Some rv), self', next') ->
  e_options rv !! "echo" =
  if truthy (config_get cfg "SQLALCHEMY_ECHO")
  then Some (OV (config_get cfg "SQLALCHEMY_ECHO")) else None.
Proof.
  intros Hnew Hcall.
  destruct (get_engine_cases unicode cfg self next)
    as [[e He]|[(uri & _ & Hsame & _)
               |(uri & info & info' & options & _ & _ & _ & Hhacks & He)]].
  - rewrite He in Hcall. by injection Hcall.
  - by rewrite Hnew in Hsame.
  - rewrite He in Hcall. injection Hcall as <- _ _. cbn [e_options].
    assert (Hnone : options !! "echo" = None).
    { rewrite (apply_driver_hacks_other_key _ _ _ _ _ _ "echo"
                 ltac:(done) ltac:(done) ltac:(done) ltac:(done) ltac:(done)
                 Hhacks).
      by apply pool_defaults_only. }
    unfold with_echo. destruct (truthy _); [apply lookup_insert_eq|done].
Qed.

Lemma echo_keyword_witness :
  exists rv,
    fst (fst (@EngineConnector.get_engine plain_library (VBool true)
                (<["SQLALCHEMY_ECHO" := VStr "debug"]>
                   (init_config reporting_config))
                (new_connector None) 0%nat)) = Ok (Some rv) /\
    e_options rv !! "echo" = Some (OV (VStr "debug")).
Proof.
  set (cfg := <["SQLALCHEMY_ECHO" := VStr "debug"]>
                (init_config reporting_config)).
  destruct (@EngineConnector.get_engine plain_library (VBool true) cfg
              (new_connector None) 0%nat) as [[r self'] next'] eqn:Hcall.
  assert (Hok : exists rv, r = Ok (Some rv)).
  { pose proof (f_equal (fun x => fst (fst x)) Hcall) as Hr. cbn in Hr.
    rewrite <- Hr. vm_compute. by eexists. }
  destruct Hok as [rv ->]. exists rv. split; [reflexivity|].
  exact (@echo_keyword plain_library (VBool true) cfg (new_connector None)
           self' 0%nat next' rv eq_refl Hcall).
Defined.

(** ** Schema operations: a bind that is not declared *)

Section SchemaFailure.
Context `{Library}.
Variable self : SQLAlchemy.



End SchemaFailure.



(** ** Tables made through the extension *)

Lemma dict_get_setdefault_ne {K V} `{EqDecision K} (d : list (K * V)) k k0 v :
  k <> k0 -> dict_get (dict_setdefault d k v) k0 = dict_get d k0.
Proof.
  intros Hne. unfold dict_setdefault.
  destruct (dict_get d k); [done|]. by apply dict_get_set_ne.
Qed.

(** X14: a table made by [db.Table] always carries a [bind_key] in its
    [info]: the one the caller gave, or [None].  Every other entry of the
    caller's [info] is kept.  So a declared table made without a bind key,
    or with [None], is one of the tables of the primary bind, and one made
    with a name is not. *)
Theorem make_table_bind_key (self : SQLAlchemy) (name : string)
    (args : list table_arg) (info : option (list (string * pyval))) :
  let table := {| t_name := name; t_info := snd (_make_table args info) |} in
  dict_get (t_info table) "bind_key" = Some (given_bind_key info) /\
  (forall k, k <> "bind_key" ->
             dict_get (t_info table) k
             = match info with Some i => dict_get i k | None => None end) /\
  (table ∈ tables self ->
   (table ∈ get_tables_for_bind self None <-> given_bind_key info = VNone)).
Proof.
  intros table.
  assert (Hkey : dict_get (t_info table) "bind_key"
                 = Some (given_bind_key info)).
  { subst table. cbn [t_info _make_table snd].
    rewrite dict_get_setdefault. by destruct info as [[|kv i]|]. }
  split; [exact Hkey|]. split.
  - intros k Hk. subst table. cbn [t_info _make_table snd].
    rewrite dict_get_setdefault_ne by done. by destruct info as [[|kv i]|].
  - intros Hin. rewrite elem_of_tables_for_bind.
    unfold bind_key. rewrite Hkey. cbn [default bind_value]. tauto.
Qed.

Example make_table_defaults :
  _make_table [ArgName "users"; ArgColumn "id"] None
  = ([ArgName "users"; ArgMetadata; ArgColumn "id"], [("bind_key", VNone)]) /\
  _make_table [ArgName "events"; ArgMetadata; ArgColumn "id"]
    (Some [("bind_key", VStr "reporting")])
  = ([ArgName "events"; ArgMetadata; ArgColumn "id"],
     [("bind_key", VStr "reporting")]).
Proof. by split. Qed.

(** ** The default query class of relationships *)

Lemma set_default_query_class_get (d : list (string * kwval)) (cls : string) :
  dict_get (_set_default_query_class d cls) "query_class"
  = Some (default (KClass cls) (dict_get d "query_class")).
Proof.
  unfold _set_default_query_class.
  destruct (dict_get d "query_class") eqn:Hq; [done|].
  apply dict_get_set_eq.
Qed.

Lemma set_default_query_class_ne (d : list (string * kwval)) (cls k : string) :
  k <> "query_class" ->
  dict_get (_set_default_query_class d cls) k = dict_get d k.
Proof.
  intros Hk. unfold _set_default_query_class.
  destruct (dict_get d "query_class"); [done|].
  by rewrite dict_get_set_ne.
Qed.

Lemma set_default_query_class_idem (d : list (string * kwval)) (cls : string) :
  _set_default_query_class (_set_default_query_class d cls) cls
  = _set_default_query_class d cls.
Proof.
  unfold _set_default_query_class at 1.
  by rewrite set_default_query_class_get.
Qed.

Lemma dict_set_idem {K V} `{EqDecision K} (d : list (K * V)) k v v' :
  dict_set (dict_set d k v) k v' = dict_set d k v'.
Proof.
  induction d as [|[k0 v0] d IH]; cbn.
  - by rewrite decide_True.
  - destruct (decide (k0 = k)) as [->|Hne]; cbn.
    + by rewrite decide_True.
    + rewrite decide_False by done. by rewrite IH.
Qed.

(** X15: what a wrapped relationship function is called with.  The keyword
    [query_class] is the one given, or the default class.  A [backref]
    given as a string is passed on as that string, so the default class
    does not reach the back reference; a [backref] given as a pair of a
    name and keywords has the default class added to its keywords unless
    they name one.  Nothing else changes, and a [backref] of another kind
    makes the call fail. *)
Theorem wrap_default_query_class (cls : string)
    (kwargs : list (string * kwval)) :
  match _wrap_with_default_query_class cls kwargs with
  | Ok kwargs' =>
      dict_get kwargs' "query_class"
      = Some (default (KClass cls) (dict_get kwargs "query_class")) /\
      (forall k, k <> "query_class" -> k <> "backref" ->
                 dict_get kwargs' k = dict_get kwargs k) /\
      match dict_get kwargs "backref" with
      | None => dict_get kwargs' "backref" = None
      | Some (KPair name d) =>
          dict_get kwargs' "backref"
          = Some (KPair name (_set_default_query_class d cls)) /\
          dict_get (_set_default_query_class d cls) "query_class"
          = Some (default (KClass cls) (dict_get d "query_class")) /\
          (forall k, k <> "query_class" ->
                     dict_get (_set_default_query_class d cls) k
                     = dict_get d k)
      | Some v => dict_get kwargs' "backref" = Some v /\
                  exists s, v = KStr s
      end
  | Raise e =>
      e = TypeError /\
      exists v, dict_get kwargs "backref" = Some v /\
                (forall s, v <> KStr s) /\ (forall name d, v <> KPair name d)
  end.
Proof.
  unfold _wrap_with_default_query_class.
  rewrite (set_default_query_class_ne kwargs cls "backref") by done.
  destruct (dict_get kwargs "backref") as [[c|s|name d|f|n]|] eqn:Hb.
  - split; [done|]. exists (KClass c). by repeat split.
  - split; [apply set_default_query_class_get|].
    split; [intros k Hk _; by apply set_default_query_class_ne|].
    rewrite set_default_query_class_ne by done. rewrite Hb.
    split; [done|by exists s].
  - split.
    { rewrite dict_get_set_ne by done. apply set_default_query_class_get. }
    split.
    { intros k Hk Hk'. rewrite dict_get_set_ne by done.
      by apply set_default_query_class_ne. }
    split; [apply dict_get_set_eq|].
    split; [apply set_default_query_class_get|].
    intros k Hk. by apply set_default_query_class_ne.
  - split; [done|]. exists (KFunc f). by repeat split.
  - split; [done|]. exists (KOpaque n). by repeat split.
  - split; [apply set_default_query_class_get|].
    split; [intros k Hk _; by apply set_default_query_class_ne|].
    rewrite set_default_query_class_ne by done. exact Hb.
Qed.

(** X16: wrapping is idempotent: the keyword arguments a wrapped function
    passes on are passed on unchanged by a second wrapper with the same
    class, so explicit values and defaults already set are never
    replaced. *)
Theorem wrap_default_query_class_idem (cls : string)
    (kwargs : list (string * kwval)) :
  match _wrap_with_default_query_class cls kwargs with
  | Ok kwargs' => _wrap_with_default_query_class cls kwargs' = Ok kwargs'
  | Raise e => True
  end.
Proof.
  unfold _wrap_with_default_query_class at 1.
  rewrite (set_default_query_class_ne kwargs cls "backref") by done.
  destruct (dict_get kwargs "backref") as [[c|s|name d|f|n]|] eqn:Hb;
    try exact I.
  - unfold _wrap_with_default_query_class.
    rewrite set_default_query_class_idem.
    by rewrite set_default_query_class_ne, Hb.
  - unfold _wrap_with_default_query_class.
    set (k0 := _set_default_query_class kwargs cls).
    set (d1 := _set_default_query_class d cls).
    assert (Hq : _set_default_query_class (dict_set k0 "backref" (KPair name d1))
                   cls = dict_set k0 "backref" (KPair name d1)).
    { unfold _set_default_query_class at 1.
      rewrite dict_get_set_ne by done. subst k0.
      by rewrite set_default_query_class_get. }
    rewrite Hq, dict_get_set_eq. subst d1.
    by rewrite set_default_query_class_idem, dict_set_idem.
  - unfold _wrap_with_default_query_class.
    rewrite set_default_query_class_idem.
    by rewrite set_default_query_class_ne, Hb.
Qed.

Example wrap_string_backref :
  _wrap_with_default_query_class "BaseQuery" [("backref", KStr "owner")]
  = Ok [("backref", KStr "owner"); ("query_class", KClass "BaseQuery")] /\
  _wrap_with_default_query_class "BaseQuery" [("backref", KPair "owner" [])]
  = Ok [("backref", KPair "owner" [("query_class", KClass "BaseQuery")]);
        ("query_class", KClass "BaseQuery")].
Proof. by split. Qed.

(** ** The options of the scoped session *)

Lemma dict_get_remove_eq {K V} `{EqDecision K} (d : list (K * V)) k :
  dict_get (dict_remove d k) k = None.
Proof.
  induction d as [|[k0 v0] d IH]; [done|]. cbn.
  destruct (decide (k0 = k)) as [->|Hne]; [done|].
  cbn. by rewrite decide_False.
Qed.

Lemma dict_get_remove_ne {K V} `{EqDecision K} (d : list (K * V)) k k0 :
  k <> k0 -> dict_get (dict_remove d k) k0 = dict_get d k0.
Proof.
  intros Hne. induction d as [|[k1 v1] d IH]; [done|]. cbn.
  destruct (decide (k1 = k)) as [->|Hne1].
  - by rewrite decide_False.
  - cbn. by rewrite IH.
Qed.

(** X17: the options [create_scoped_session] works with.  The scope
    function is the option [scopefunc], or the current task of the event
    loop; it is taken out of the options, so the session factory never
    receives it.  The factory always receives a [query_cls]: the one in
    the options, or the query class of the extension.  Every other option
    is handed on as given. *)
Theorem scoped_session_options_spec (Query : string)
    (options : option (list (string * kwval))) :
  let given := default [] options in
  let scopefunc := fst (scoped_session_options Query options) in
  let passed := snd (scoped_session_options Query options) in
  scopefunc = default current_task (dict_get given "scopefunc") /\
  dict_get passed "scopefunc" = None /\
  dict_get passed "query_cls"
  = Some (default (KClass Query) (dict_get given "query_cls")) /\
  (forall k, k <> "scopefunc" -> k <> "query_cls" ->
             dict_get passed k = dict_get given k).
Proof.
  intros given scopefunc passed. subst scopefunc passed.
  unfold scoped_session_options. cbn [fst snd]. fold given.
  split; [done|]. split.
  { rewrite dict_get_set_ne by done. apply dict_get_remove_eq. }
  split.
  { rewrite dict_get_set_eq. by rewrite dict_get_remove_ne. }
  intros k Hk Hk'. rewrite dict_get_set_ne by done.
  by apply dict_get_remove_ne.
Qed.

(** ** Sessions *)

Section SessionFacts.
Context `{Library}.
Variable self : SQLAlchemy.




End SessionFacts.




(** ** The attributes copied onto the extension object *)

Lemma include_module_lookup (module : string) (all : list string) :
  forall (obj : gmap string attr) (k : string),
    include_module module all obj !! k
    = match obj !! k with
      | Some a => Some a
      | None => if decide (k ∈ all) then Some (FromModule module k) else None
      end.
Proof.
  unfold include_module.
  induction all as [|key all IH]; intros obj k; cbn [fold_left].
  - rewrite decide_False by apply not_elem_of_nil. by destruct (obj !! k).
  - rewrite IH. destruct (decide (key = k)) as [->|Hne].
    + destruct (obj !! k) as [a|] eqn:Hk.
      * by rewrite Hk.
      * rewrite lookup_insert_eq. rewrite decide_True by (by left). done.
    + assert (Hk : (match obj !! key with
                    | Some _ => obj
                    | None => <[key := FromModule module key]> obj
                    end) !! k = obj !! k).
      { destruct (obj !! key); [done|]. by apply lookup_insert_ne. }
      rewrite Hk. destruct (obj !! k); [done|].
      destruct (decide (k ∈ all)) as [Hin|Hin].
      * rewrite decide_True by (by right). done.
      * rewrite decide_False; [done|].
        intros [->|?]%elem_of_cons; done.
Qed.

Lemma include_modules_provided (sqlalchemy_all orm_all : list string)
    (obj : gmap string attr) (k : string) :
  include_module "sqlalchemy.orm" orm_all
    (include_module "sqlalchemy" sqlalchemy_all obj) !! k
  = provided sqlalchemy_all orm_all obj k.
Proof.
  rewrite !include_module_lookup. unfold provided.
  destruct (obj !! k); [done|]. by destruct (decide (k ∈ sqlalchemy_all)).
Qed.

(** X20: the attributes of the extension object after
    [_include_sqlalchemy].  [Table] is the table factory and [event] the
    event module, whatever the object or the modules had under these
    names; the three relationship functions are wrappers of what the
    object had or was given under their names; and every other attribute
    is the object's own if it had one, else the export of [sqlalchemy],
    else the export of [sqlalchemy.orm], so an attribute of the object is
    never replaced by an export and [sqlalchemy] wins over
    [sqlalchemy.orm].  The call fails, with the attribute error of the
    first missing name, exactly when one of the three relationship
    functions is neither on the object nor exported. *)
Theorem include_sqlalchemy_attributes (sqlalchemy_all orm_all : list string)
    (obj : gmap string attr) :
  let given := provided sqlalchemy_all orm_all obj in
  match _include_sqlalchemy sqlalchemy_all orm_all obj with
  | Included obj' =>
      obj' !! "Table" = Some TableFactory /\
      obj' !! "event" = Some EventModule /\
      (forall k, k ∈ wrapped_names ->
                 exists fn, given k = Some fn /\
                            obj' !! k = Some (WithQueryClass fn)) /\
      (forall k, k <> "Table" -> k <> "event" -> k ∉ wrapped_names ->
                 obj' !! k = given k)
  | AttributeError name =>
      exists before after,
        wrapped_names = before ++ name :: after /\
        given name = None /\
        forall k, k ∈ before -> is_Some (given k)
  end.
Proof.
  intros given. unfold _include_sqlalchemy, wrap_attr.
  set (obj0 := include_module "sqlalchemy.orm" orm_all
                 (include_module "sqlalchemy" sqlalchemy_all obj)).
  assert (Hgiven : forall k, obj0 !! k = given k).
  { intros k. apply include_modules_provided. }
  rewrite (lookup_insert_ne obj0 "Table" "relationship") by done.
  rewrite Hgiven.
  destruct (given "relationship") as [f1|] eqn:H1; cycle 1.
  { exists [], ["relation"; "dynamic_loader"]. split; [done|].
    split; [done|]. intros k Hk. by apply elem_of_nil in Hk. }
  rewrite lookup_insert_ne by done.
  rewrite (lookup_insert_ne obj0 "Table" "relation") by done.
  rewrite Hgiven.
  destruct (given "relation") as [f2|] eqn:H2; cycle 1.
  { exists ["relationship"], ["dynamic_loader"]. split; [done|].
    split; [done|]. intros k ->%list_elem_of_singleton. by rewrite H1. }
  rewrite !lookup_insert_ne by done.
  rewrite Hgiven.
  destruct (given "dynamic_loader") as [f3|] eqn:H3; cycle 1.
  { exists ["relationship"; "relation"], []. split; [done|].
    split; [done|]. intros k. rewrite !elem_of_cons, elem_of_nil.
    intros [->|[->|[]]]; [by rewrite H1|by rewrite H2]. }
  split.
  { rewrite !lookup_insert_ne by done. apply lookup_insert_eq. }
  split; [apply lookup_insert_eq|].
  split.
  - intros k. unfold wrapped_names. rewrite !elem_of_cons, elem_of_nil.
    intros [->|[->|[->|[]]]].
    + exists f1. split; [done|].
      rewrite !lookup_insert_ne by done. apply lookup_insert_eq.
    + exists f2. split; [done|].
      rewrite !lookup_insert_ne by done. apply lookup_insert_eq.
    + exists f3. split; [done|].
      rewrite lookup_insert_ne by done. apply lookup_insert_eq.
  - intros k Ht He Hw. unfold wrapped_names in Hw.
    rewrite !not_elem_of_cons in Hw. destruct Hw as (Hr1 & Hr2 & Hr3 & _).
    rewrite !lookup_insert_ne by done. apply Hgiven.
Qed.

Example include_sqlalchemy_own_attribute :
  match _include_sqlalchemy ["Column"; "Table"; "relationship"]
          ["relationship"; "relation"; "dynamic_loader"; "Query"]
          {[ "Column" := Own 1; "Query" := Own 2 ]} with
  | Included obj' =>
      obj' !! "Column" = Some (Own 1) /\
      obj' !! "Query" = Some (Own 2) /\
      obj' !! "Table" = Some TableFactory /\
      obj' !! "relationship"
      = Some (WithQueryClass (FromModule "sqlalchemy" "relationship")) /\
      obj' !! "relation"
      = Some (WithQueryClass (FromModule "sqlalchemy.orm" "relation"))
  | AttributeError _ => False
  end /\
  _include_sqlalchemy ["relationship"] ["Query"] ∅ = AttributeError "relation".
Proof. vm_compute. by repeat split. Qed.
